(** * Job-application tracker: the request handlers of [main.py] and the
      schemas of [schemas.py], embedded and checked against their
      specification.

    Layout of the development:
    - text helpers (ASCII case folding, substring search);
    - the values a stored document holds, [ObjectId], [datetime], and
      what the store keeps of them;
    - [to_public];
    - the pydantic models [JobApplication] and [UpdateJobApplication];
    - the document store: the pymongo collection operations the handlers
      call, and the helpers of the [database] module;
    - the four CRUD handlers and their routes;
    - the theorems. *)

From Stdlib Require Import ZArith QArith Ascii String.
From stdpp Require Import base option list strings pretty gmap.

#[local] Set Warnings "-register-all".
Local Open Scope string_scope.
Local Open Scope list_scope.

(** ** Text *)

(** Python [str] is modelled by the bytes of its UTF-8 encoding, one
    [ascii] per byte; case folding is the ASCII one. *)

Definition is_upper (c : ascii) : bool :=
  let n := nat_of_ascii c in (65 <=? n)%nat && (n <=? 90)%nat.

Definition lower_ascii (c : ascii) : ascii :=
  if is_upper c then ascii_of_nat (nat_of_ascii c + 32) else c.

Definition chars (s : string) : list ascii := list_ascii_of_string s.

Definition lower (l : list ascii) : list ascii := lower_ascii <$> l.

(** [needle] occurs in [hay], both compared after case folding. *)
Definition contains_ci (needle hay : string) : Prop :=
  ∃ pre post, lower (chars hay) = pre ++ lower (chars needle) ++ post.

(** A byte [10xxxxxx], which continues the character begun before it. *)
Definition is_continuation (c : ascii) : bool :=
  let n := nat_of_ascii c in (128 <=? n)%nat && (n <? 192)%nat.

(** The number of characters of a text. *)
Fixpoint utf8_length (l : list ascii) : nat :=
  match l with
  | [] => O
  | c :: rest =>
      if is_continuation c then utf8_length rest else S (utf8_length rest)
  end.

(** [len(s)]. *)
Definition py_len (s : string) : nat := utf8_length (chars s).

(** The bytes of the first [n] characters of a text. *)
Fixpoint utf8_take (n : nat) (l : list ascii) : list ascii :=
  match l with
  | [] => []
  | c :: rest =>
      if is_continuation c then c :: utf8_take n rest
      else match n with
           | O => []
           | S m => c :: utf8_take m rest
           end
  end.

Definition is_ascii (s : string) : bool :=
  forallb (λ c, (nat_of_ascii c <? 128)%nat) (chars s).

Definition quote : ascii := ascii_of_nat 39.
Definition double_quote : ascii := ascii_of_nat 34.
Definition backslash : ascii := ascii_of_nat 92.

Definition hex_digit (n : nat) : ascii :=
  nth n (chars "0123456789abcdef") (ascii_of_nat 48).

(** How [repr] writes one character of a text quoted with [q]. *)
Definition repr_char (q c : ascii) : list ascii :=
  let n := nat_of_ascii c in
  if Ascii.eqb c q || Ascii.eqb c backslash then [backslash; c]
  else if (n =? 9)%nat then chars "\t"
  else if (n =? 10)%nat then chars "\n"
  else if (n =? 13)%nat then chars "\r"
  else if (n <? 32)%nat || (n =? 127)%nat
       then chars "\x" ++ [hex_digit (n / 16); hex_digit (n mod 16)]
  else [c].

(** [repr(s)] of a text of ASCII characters: in double quotes when the
    text has a single quote and no double quote, in single quotes
    otherwise; the quote, the backslash and the control characters are
    escaped. For other characters [repr] depends on which of them Unicode
    calls printable, which is not modelled: [update_application] and
    [delete_application] use [py_repr] under [is_ascii] only, and
    [create_application] on the text of an identifier. *)
Definition py_repr (s : string) : string :=
  let l := chars s in
  let q := if existsb (Ascii.eqb quote) l
              && negb (existsb (Ascii.eqb double_quote) l)
           then double_quote else quote in
  string_of_list_ascii (q :: concat (repr_char q <$> l) ++ [q]).

(** ** ObjectId *)

(** [bson.ObjectId] is modelled by the hexadecimal text of its bytes, in
    lowercase: 24 digits for the 12 bytes of an identifier the store hands
    out; [str] of an ObjectId is that text. *)
Inductive ObjectId := Oid (hex : string).

Global Instance ObjectId_eq_dec : EqDecision ObjectId.
Proof. solve_decision. Defined.

Definition str_oid (o : ObjectId) : string := let 'Oid h := o in h.

Definition is_digit (c : ascii) : bool :=
  let n := nat_of_ascii c in (48 <=? n)%nat && (n <=? 57)%nat.

Definition is_hex (c : ascii) : bool :=
  let n := nat_of_ascii c in
  is_digit c || ((97 <=? n)%nat && (n <=? 102)%nat)
             || ((65 <=? n)%nat && (n <=? 70)%nat).

Definition is_lower_hex (c : ascii) : bool :=
  let n := nat_of_ascii c in
  is_digit c || ((97 <=? n)%nat && (n <=? 102)%nat).

(** An ObjectId as the store hands it out. *)
Definition canonical (o : ObjectId) : bool :=
  let l := chars (str_oid o) in
  (length l =? 24)%nat && forallb is_lower_hex l.

(** ASCII whitespace, as [bytes.fromhex] skips it. *)
Definition is_space (c : ascii) : bool :=
  let n := nat_of_ascii c in
  ((9 <=? n)%nat && (n <=? 13)%nat) || (n =? 32)%nat.

(** [bytes.fromhex(s)], the bytes written as lowercase hexadecimal digits:
    each byte is two adjacent hexadecimal digits of either case, and
    whitespace is skipped before a byte and at the end; [ValueError] (here
    [None]) for anything else. *)
Fixpoint fromhex (l : list ascii) : option (list ascii) :=
  match l with
  | [] => Some []
  | c :: rest =>
      if is_space c then fromhex rest
      else if is_hex c then
        match rest with
        | d :: rest' =>
            if is_hex d
            then match fromhex rest' with
                 | Some bytes => Some (lower_ascii c :: lower_ascii d :: bytes)
                 | None => None
                 end
            else None
        | [] => None
        end
      else None
  end.

(** [ObjectId(s)] for a [str] argument: a text of 24 characters that
    [bytes.fromhex] reads; [InvalidId] (here [None]) otherwise. The bytes
    are not counted, so that a text with whitespace gives an identifier of
    fewer than 12 bytes. *)
Definition ObjectId_of (s : string) : option ObjectId :=
  if (py_len s =? 24)%nat
  then match fromhex (chars s) with
       | Some bytes => Some (Oid (string_of_list_ascii bytes))
       | None => None
       end
  else None.

(** The message of [InvalidId]. *)
Definition invalid_id_message (s : string) : string :=
  py_repr s +:+
  " is not a valid ObjectId, it must be a 12-byte input or a 24-character hex string".

(** ** Dates and timestamps *)

Record date := Date { d_year : nat; d_month : nat; d_day : nat }.

Record datetime := Datetime {
  year : nat; month : nat; day : nat;
  hour : nat; minute : nat; second : nat; microsecond : nat
}.

(** The timestamp the store keeps for [t]: BSON counts milliseconds. *)
Definition to_milliseconds (t : datetime) : datetime :=
  Datetime (year t) (month t) (day t) (hour t) (minute t) (second t)
           (microsecond t / 1000 * 1000).

Definition digit_char (n : nat) : ascii := ascii_of_nat (48 + n mod 10).

(** The last [width] decimal digits of [n], zero padded. *)
Fixpoint zero_padded (width n : nat) : list ascii :=
  match width with
  | O => []
  | S w => zero_padded w (n / 10) ++ [digit_char n]
  end.

(** [datetime.isoformat()] of a naive datetime. *)
Definition isoformat (t : datetime) : string :=
  string_of_list_ascii
    (zero_padded 4 (year t) ++ chars "-" ++ zero_padded 2 (month t) ++ chars "-"
     ++ zero_padded 2 (day t) ++ chars "T" ++ zero_padded 2 (hour t) ++ chars ":"
     ++ zero_padded 2 (minute t) ++ chars ":" ++ zero_padded 2 (second t)
     ++ (if (microsecond t =? 0)%nat then []
         else chars "." ++ zero_padded 6 (microsecond t))).

(** ** Documents *)

(** What a field of a document holds. *)
Inductive value :=
| VNull
| VStr (s : string)
| VNum (x : Q)
| VList (l : list value)
| VOid (o : ObjectId)
| VDate (d : date)
| VDatetime (t : datetime).

(** A document is a Python [dict] with text keys. *)
Abbreviation document := (gmap string value).

(** What the store keeps of a value written to it. BSON has no calendar
    date: encoding a [datetime.date] raises [InvalidDocument], and the
    result is then the first date met; a timestamp is kept to the
    millisecond. *)
Definition bson_values (encode : value → date + value)
  : list value → date + list value :=
  fix go (l : list value) : date + list value :=
    match l with
    | [] => inr []
    | x :: rest =>
        match encode x with
        | inl d => inl d
        | inr y => match go rest with
                   | inl d => inl d
                   | inr ys => inr (y :: ys)
                   end
        end
    end.

Fixpoint bson_value (v : value) : date + value :=
  match v with
  | VDate d => inl d
  | VDatetime t => inr (VDatetime (to_milliseconds t))
  | VList l =>
      match bson_values bson_value l with
      | inl d => inl d
      | inr l' => inr (VList l')
      end
  | VNull | VStr _ | VNum _ | VOid _ => inr v
  end.

(** The entries of a [dict], in its order. *)
Fixpoint bson_items (l : list (string * value)) : date + list (string * value) :=
  match l with
  | [] => inr []
  | (k, v) :: rest =>
      match bson_value v with
      | inl d => inl d
      | inr w => match bson_items rest with
                 | inl d => inl d
                 | inr ws => inr ((k, w) :: ws)
                 end
      end
  end.

Definition stored_value (v : value) : option value :=
  match bson_value v with
  | inr w => Some w
  | inl _ => None
  end.

(** A document as the store keeps it; [None] when a value cannot be
    encoded. *)
Definition bson_document (d : document) : option document :=
  if decide (map_Forall (λ _ v, is_Some (stored_value v)) d)
  then Some (omap stored_value d)
  else None.

(** [repr] of a [datetime.date] and the message of [InvalidDocument]. *)
Definition repr_date (d : date) : string :=
  "datetime.date(" +:+ pretty (d_year d) +:+ ", " +:+ pretty (d_month d)
  +:+ ", " +:+ pretty (d_day d) +:+ ")".

Definition cannot_encode_message (d : date) : string :=
  "cannot encode object: " +:+ repr_date d
  +:+ ", of type: <class 'datetime.date'>".

(** Python truthiness of a field value, as [d.get("_id")] is tested. *)
Definition truthy (v : value) : bool :=
  match v with
  | VNull => false
  | VStr s => negb (String.eqb s "")
  | VNum x => negb (Qeq_bool x 0)
  | VList l => match l with [] => false | _ => true end
  | VOid _ | VDate _ | VDatetime _ => true
  end.

(** [str(v)]. The text Python gives for a number, a list, a date or a
    timestamp is not modelled: [None] there. *)
Definition py_str (v : value) : option string :=
  match v with
  | VOid o => Some (str_oid o)
  | VStr s => Some s
  | VNull => Some "None"
  | _ => None
  end.

Definition iso_value (v : value) : value :=
  match v with
  | VDatetime t => VStr (isoformat t)
  | _ => v
  end.

(** [to_public(doc)] of [main.py]: a copy of [doc] in which the text of
    a truthy [_id] moves under [id] ([None] under [id] otherwise, the [_id]
    key then staying where it is), and in which each value that is a
    [datetime] is replaced by its ISO text. The result is [None] only where
    [py_str] is. *)
Definition move_id (doc : document) : option document :=
  match doc !! "_id" with
  | Some v =>
      if truthy v
      then s ← py_str v; Some (<["id" := VStr s]> (delete "_id" doc))
      else Some (<["id" := VNull]> doc)
  | None => Some (<["id" := VNull]> doc)
  end.

Definition to_public (doc : document) : option document :=
  match move_id doc with
  | Some d => Some (iso_value <$> d)
  | None => None
  end.

(** ** Exceptions and responses *)

Inductive exn :=
| HTTPException (status_code : Z) (detail : string)
| Exception (message : string).

(** [str(e)]; for an [HTTPException] it is "<status>: <detail>". *)
Definition str_exn (e : exn) : string :=
  match e with
  | HTTPException c d => pretty c +:+ ": " +:+ d
  | Exception m => m
  end.

(** What running a piece of Python gives: a value, an exception, or a run
    that leaves what this development models ([py_str] of a number, a
    regular expression beyond literal characters and [.]). *)
Inductive result (A : Type) :=
| Ok (a : A)
| Raise (e : exn)
| Unmodelled.
Arguments Ok {A} a.
Arguments Raise {A} e.
Arguments Unmodelled {A}.

Definition of_option {A} (o : option A) : result A :=
  match o with Some a => Ok a | None => Unmodelled end.

(** [except Exception as e: raise HTTPException(status_code=400,
    detail=str(e))], the only handler of [create_application]. *)
Definition except_Exception {A} (r : result A) : result A :=
  match r with
  | Raise e => Raise (HTTPException 400 (str_exn e))
  | _ => r
  end.

(** [except HTTPException: raise] followed by [except Exception as e:
    raise HTTPException(status_code=400, detail=str(e))]. *)
Definition except_HTTPException_raise {A} (r : result A) : result A :=
  match r with
  | Raise (Exception m) => Raise (HTTPException 400 m)
  | _ => r
  end.

Inductive body :=
| NoContent
| Document (d : document)
| Documents (l : list document).

(** What the client receives. [ValidationError] is the framework's answer
    to a body the pydantic model rejects; it is produced before the
    handler is called. *)
Inductive response :=
| Response (status_code : Z) (content : body)
| ErrorResponse (status_code : Z) (detail : string)
| ValidationError
| NotModelled.

(** The framework around a handler: the route's success status for a
    returned value, the status and detail of an [HTTPException], 500 for
    any other exception. *)
Definition respond (success : Z) (r : result body) : response :=
  match r with
  | Ok b => Response success b
  | Raise (HTTPException c d) => ErrorResponse c d
  | Raise (Exception _) => ErrorResponse 500 "Internal Server Error"
  | Unmodelled => NotModelled
  end.

(** ** The pydantic models *)

(** What a request body holds for one field, seen through pydantic's
    parser for the field's declared type: no such key, JSON [null], a
    value of the type, or a value that does not parse as the type. *)
Inductive field_input (A : Type) :=
| Absent
| Null
| Given (a : A)
| Unparseable.
Arguments Absent {A}.
Arguments Null {A}.
Arguments Given {A} a.
Arguments Unparseable {A}.

(** A JSON request body with the sixteen keys of the schemas; [D] is the
    type the two date keys are parsed at ([date] on create, [str] on
    update). *)
Record request_body (D : Type) := RequestBody {
  b_company : field_input string;
  b_position : field_input string;
  b_location : field_input string;
  b_job_link : field_input string;
  b_source : field_input string;
  b_status : field_input string;
  b_applied_date : field_input D;
  b_follow_up_date : field_input D;
  b_salary_min : field_input Q;
  b_salary_max : field_input Q;
  b_contact_name : field_input string;
  b_contact_email : field_input string;
  b_resume_version : field_input string;
  b_priority : field_input string;
  b_tags : field_input (list string);
  b_notes : field_input string
}.
Arguments RequestBody {D}.
Arguments b_company {D}.
Arguments b_position {D}.
Arguments b_location {D}.
Arguments b_job_link {D}.
Arguments b_source {D}.
Arguments b_status {D}.
Arguments b_applied_date {D}.
Arguments b_follow_up_date {D}.
Arguments b_salary_min {D}.
Arguments b_salary_max {D}.
Arguments b_contact_name {D}.
Arguments b_contact_email {D}.
Arguments b_resume_version {D}.
Arguments b_priority {D}.
Arguments b_tags {D}.
Arguments b_notes {D}.

(** [schemas.JobApplication], which [CreateJobApplication] inherits
    unchanged. *)
Record JobApplication := {
  company : string;
  position : string;
  location : option string;
  job_link : option string;
  source : option string;
  status : string;
  applied_date : option date;
  follow_up_date : option date;
  salary_min : option Q;
  salary_max : option Q;
  contact_name : option string;
  contact_email : option string;
  resume_version : option string;
  priority : option string;
  tags : list string;
  notes : option string
}.

(** [main.CreateJobApplication]: [class CreateJobApplication(JobApplication):
    pass]. *)
Definition CreateJobApplication : Type := JobApplication.

(** [main.UpdateJobApplication]; [model_fields_set] is pydantic's record
    of the keys the body carried. *)
Record UpdateJobApplication := {
  upd_company : option string;
  upd_position : option string;
  upd_location : option string;
  upd_job_link : option string;
  upd_source : option string;
  upd_status : option string;
  upd_applied_date : option string;
  upd_follow_up_date : option string;
  upd_salary_min : option Q;
  upd_salary_max : option Q;
  upd_contact_name : option string;
  upd_contact_email : option string;
  upd_resume_version : option string;
  upd_priority : option string;
  upd_tags : option (list string);
  upd_notes : option string;
  model_fields_set : list string
}.

(** Field declarations. [required] is [T = Field(...)], [optional] is
    [Optional[T] = None], [with_default d] is [T = d] and
    [optional_with_default d] is [Optional[T] = d]. *)
Definition required {A} (i : field_input A) : option A :=
  match i with Given a => Some a | _ => None end.

Definition optional {A} (i : field_input A) : option (option A) :=
  match i with
  | Absent | Null => Some None
  | Given a => Some (Some a)
  | Unparseable => None
  end.

Definition with_default {A} (d : A) (i : field_input A) : option A :=
  match i with
  | Absent => Some d
  | Given a => Some a
  | Null | Unparseable => None
  end.

Definition optional_with_default {A} (d : A) (i : field_input A)
  : option (option A) :=
  match i with
  | Absent => Some (Some d)
  | Null => Some None
  | Given a => Some (Some a)
  | Unparseable => None
  end.

(** The constraint [ge=0] on an optional number. *)
Definition ge_0 (x : option Q) : option (option Q) :=
  match x with
  | Some q => if Qle_bool 0 q then Some x else None
  | None => Some None
  end.

(** Validation of a body against [CreateJobApplication]; [None] is a
    validation error. *)
Definition validate_create (b : request_body date) : option JobApplication :=
  company ← required (b_company b);
  position ← required (b_position b);
  location ← optional (b_location b);
  job_link ← optional (b_job_link b);
  source ← optional (b_source b);
  status ← with_default "applied" (b_status b);
  applied_date ← optional (b_applied_date b);
  follow_up_date ← optional (b_follow_up_date b);
  salary_min ← optional (b_salary_min b) ≫= ge_0;
  salary_max ← optional (b_salary_max b) ≫= ge_0;
  contact_name ← optional (b_contact_name b);
  contact_email ← optional (b_contact_email b);
  resume_version ← optional (b_resume_version b);
  priority ← optional_with_default "medium" (b_priority b);
  tags ← with_default [] (b_tags b);
  notes ← optional (b_notes b);
  Some {| company := company; position := position; location := location;
          job_link := job_link; source := source; status := status;
          applied_date := applied_date; follow_up_date := follow_up_date;
          salary_min := salary_min; salary_max := salary_max;
          contact_name := contact_name; contact_email := contact_email;
          resume_version := resume_version; priority := priority;
          tags := tags; notes := notes |}.

Definition sent {A} (name : string) (i : field_input A) : list string :=
  match i with Absent => [] | _ => [name] end.

Definition fields_sent {D} (b : request_body D) : list string :=
  sent "company" (b_company b) ++ sent "position" (b_position b)
  ++ sent "location" (b_location b) ++ sent "job_link" (b_job_link b)
  ++ sent "source" (b_source b) ++ sent "status" (b_status b)
  ++ sent "applied_date" (b_applied_date b)
  ++ sent "follow_up_date" (b_follow_up_date b)
  ++ sent "salary_min" (b_salary_min b) ++ sent "salary_max" (b_salary_max b)
  ++ sent "contact_name" (b_contact_name b)
  ++ sent "contact_email" (b_contact_email b)
  ++ sent "resume_version" (b_resume_version b)
  ++ sent "priority" (b_priority b) ++ sent "tags" (b_tags b)
  ++ sent "notes" (b_notes b).

(** Validation of a body against [UpdateJobApplication]. *)
Definition validate_update (b : request_body string)
  : option UpdateJobApplication :=
  company ← optional (b_company b);
  position ← optional (b_position b);
  location ← optional (b_location b);
  job_link ← optional (b_job_link b);
  source ← optional (b_source b);
  status ← optional (b_status b);
  applied_date ← optional (b_applied_date b);
  follow_up_date ← optional (b_follow_up_date b);
  salary_min ← optional (b_salary_min b);
  salary_max ← optional (b_salary_max b);
  contact_name ← optional (b_contact_name b);
  contact_email ← optional (b_contact_email b);
  resume_version ← optional (b_resume_version b);
  priority ← optional (b_priority b);
  tags ← optional (b_tags b);
  notes ← optional (b_notes b);
  Some {| upd_company := company; upd_position := position;
          upd_location := location; upd_job_link := job_link;
          upd_source := source; upd_status := status;
          upd_applied_date := applied_date;
          upd_follow_up_date := follow_up_date;
          upd_salary_min := salary_min; upd_salary_max := salary_max;
          upd_contact_name := contact_name;
          upd_contact_email := contact_email;
          upd_resume_version := resume_version; upd_priority := priority;
          upd_tags := tags; upd_notes := notes;
          model_fields_set := fields_sent b |}.

Definition VTags (l : list string) : value := VList (VStr <$> l).

Definition or_null (v : option value) : value := default VNull v.

(** [model_dump()] of a [JobApplication]: every field, [None] included;
    [model_dump_items] has the entries in the order of the [dict]. *)
Definition model_dump_items (m : JobApplication) : list (string * value) :=
    [ ("company", VStr (company m));
      ("position", VStr (position m));
      ("location", or_null (VStr <$> location m));
      ("job_link", or_null (VStr <$> job_link m));
      ("source", or_null (VStr <$> source m));
      ("status", VStr (status m));
      ("applied_date", or_null (VDate <$> applied_date m));
      ("follow_up_date", or_null (VDate <$> follow_up_date m));
      ("salary_min", or_null (VNum <$> salary_min m));
      ("salary_max", or_null (VNum <$> salary_max m));
      ("contact_name", or_null (VStr <$> contact_name m));
      ("contact_email", or_null (VStr <$> contact_email m));
      ("resume_version", or_null (VStr <$> resume_version m));
      ("priority", or_null (VStr <$> priority m));
      ("tags", VTags (tags m));
      ("notes", or_null (VStr <$> notes m)) ].

Definition model_dump (m : JobApplication) : document :=
  list_to_map (model_dump_items m).

(** The fields of an [UpdateJobApplication], in declaration order. *)
Definition update_fields (p : UpdateJobApplication)
  : list (string * option value) :=
  [ ("company", VStr <$> upd_company p);
    ("position", VStr <$> upd_position p);
    ("location", VStr <$> upd_location p);
    ("job_link", VStr <$> upd_job_link p);
    ("source", VStr <$> upd_source p);
    ("status", VStr <$> upd_status p);
    ("applied_date", VStr <$> upd_applied_date p);
    ("follow_up_date", VStr <$> upd_follow_up_date p);
    ("salary_min", VNum <$> upd_salary_min p);
    ("salary_max", VNum <$> upd_salary_max p);
    ("contact_name", VStr <$> upd_contact_name p);
    ("contact_email", VStr <$> upd_contact_email p);
    ("resume_version", VStr <$> upd_resume_version p);
    ("priority", VStr <$> upd_priority p);
    ("tags", VTags <$> upd_tags p);
    ("notes", VStr <$> upd_notes p) ].

(** [model_dump(exclude_none=True)]: the fields whose value is not
    [None], whether or not the body carried them. *)
Definition exclude_none (l : list (string * option value))
  : list (string * value) :=
  omap (λ kv, (kv.1,.) <$> kv.2) l.

Definition model_dump_exclude_none (p : UpdateJobApplication) : document :=
  list_to_map (exclude_none (update_fields p)).

(** [not d] for a dict. *)
Definition dict_is_empty (d : document) : bool :=
  match map_to_list d with [] => true | _ => false end.

(** ** Regular expressions *)

(** The part of the store's regular expressions (PCRE) that is modelled:
    a pattern of ordinary characters, each standing for itself, and [.],
    standing for any character but a newline. *)
Inductive atom :=
| Lit (c : ascii)
| AnyChar.

Definition metachars : list ascii := chars "\^$[]|()?*+{}".

Definition is_meta (c : ascii) : bool := existsb (Ascii.eqb c) metachars.

(** [None] for a pattern that uses any other metacharacter. *)
Fixpoint regex_compile (pattern : list ascii) : option (list atom) :=
  match pattern with
  | [] => Some []
  | c :: rest =>
      a ← (if Ascii.eqb c "." then Some AnyChar
           else if is_meta c then None else Some (Lit c));
      re ← regex_compile rest;
      Some (a :: re)
  end.

(** [$options]: ["i"] asks for a case-insensitive match; apart from it
    only the empty option string is modelled. *)
Definition regex_options (options : string) : option bool :=
  if String.eqb options "i" then Some true
  else if String.eqb options "" then Some false
  else None.

Definition atom_matches (ci : bool) (a : atom) (c : ascii) : bool :=
  match a with
  | Lit x => if ci then Ascii.eqb (lower_ascii x) (lower_ascii c)
             else Ascii.eqb x c
  | AnyChar => negb (Ascii.eqb c "010")
  end.

(** The pattern matches at the start of the subject. *)
Fixpoint match_here (ci : bool) (re : list atom) (s : list ascii) : bool :=
  match re, s with
  | [], _ => true
  | a :: re', c :: s' => atom_matches ci a c && match_here ci re' s'
  | _ :: _, [] => false
  end.

(** The pattern matches somewhere in the subject (it is not anchored). *)
Fixpoint search (ci : bool) (re : list atom) (s : list ascii) : bool :=
  match_here ci re s ||
  match s with
  | [] => false
  | _ :: s' => search ci re s'
  end.

(** ** Query filters *)

(** The operator documents [list_applications] builds:
    [{"$regex": p, "$options": o}] and
    [{"$elemMatch": {"$regex": p, "$options": o}}]. *)
Inductive operator :=
| Regex (pattern options : string)
| ElemMatchRegex (pattern options : string).

(** The entries of a filter document: [{field: text}] and
    [{"$or": [{field: operator}, ...]}]. *)
Inductive clause :=
| Eq (field : string) (v : string)
| Or (alternatives : list (string * operator)).

(** A filter document; its entries are conjoined. *)
Abbreviation filter := (list clause).

Definition text_matches (ci : bool) (re : list atom) (v : value) : bool :=
  match v with
  | VStr s => search ci re (chars s)
  | _ => false
  end.

(** The store's reading of an operator on a field: a regular expression
    holds of a text it matches and of an array with such an element;
    [$elemMatch] holds of an array with a matching element only. *)
Definition operator_matches (op : operator) (v : option value) : option bool :=
  match op with
  | Regex p o =>
      ci ← regex_options o;
      re ← regex_compile (chars p);
      Some match v with
           | Some (VStr s) => search ci re (chars s)
           | Some (VList l) => existsb (text_matches ci re) l
           | _ => false
           end
  | ElemMatchRegex p o =>
      ci ← regex_options o;
      re ← regex_compile (chars p);
      Some match v with
           | Some (VList l) => existsb (text_matches ci re) l
           | _ => false
           end
  end.

Definition is_text (t : string) (v : value) : bool :=
  match v with
  | VStr s => String.eqb s t
  | _ => false
  end.

(** Equality with a text: the field is that text, or an array holding
    it. *)
Definition equals_text (t : string) (v : option value) : bool :=
  match v with
  | Some (VStr s) => String.eqb s t
  | Some (VList l) => existsb (is_text t) l
  | _ => false
  end.

Fixpoint any_matches (alts : list (string * operator)) (d : document)
  : option bool :=
  match alts with
  | [] => Some false
  | (k, op) :: rest =>
      b ← operator_matches op (d !! k);
      bs ← any_matches rest d;
      Some (b || bs)
  end.

Definition clause_matches (c : clause) (d : document) : option bool :=
  match c with
  | Eq k t => Some (equals_text t (d !! k))
  | Or alts => any_matches alts d
  end.

Fixpoint filter_matches (f : filter) (d : document) : option bool :=
  match f with
  | [] => Some true
  | c :: rest =>
      b ← clause_matches c d;
      bs ← filter_matches rest d;
      Some (b && bs)
  end.

(** ** The document store *)

(** The database holds the one collection the handlers use; documents are
    kept in insertion order. [db] of the [database] module is
    [option database]: [None] when the store is not configured. *)
Record database := Database { jobapplication : list document }.

Definition has_id (oid : ObjectId) (d : document) : bool :=
  match d !! "_id" with
  | Some (VOid o) => bool_decide (o = oid)
  | _ => false
  end.

(** [collection.find_one({"_id": oid})]. Identifiers are compared as
    byte strings: one of fewer than 12 bytes is the identifier of no
    document the store gave an identifier to. *)
Definition find_one (oid : ObjectId) (coll : list document) : option document :=
  List.find (has_id oid) coll.

(** [collection.insert_one(doc)] with [doc] the entries of the [dict] in
    its order and [fresh] the identifier the driver generates. The driver
    encodes the document before it sends it: a document with a calendar
    date is never sent. The unique index on [_id] refuses a duplicate. *)
Definition insert_one (fresh : ObjectId) (doc : list (string * value))
    (coll : list document) : result (list document) :=
  match bson_items doc with
  | inl d => Raise (Exception (cannot_encode_message d))
  | inr stored =>
      if existsb (has_id fresh) coll
      then Raise (Exception "E11000 duplicate key error")
      else Ok (coll ++ [<["_id" := VOid fresh]> (list_to_map stored)])
  end.

(** The first document with identifier [oid] takes every entry of
    [stored]; returns the number of documents matched and the
    collection. *)
Fixpoint set_first (oid : ObjectId) (stored : document) (coll : list document)
  : nat * list document :=
  match coll with
  | [] => (O, [])
  | d :: rest =>
      if has_id oid d then (1%nat, (stored ∪ d) :: rest)
      else let '(n, rest') := set_first oid stored rest in (n, d :: rest')
  end.

(** [collection.update_one({"_id": oid}, {"$set": upd})]: the first
    matching document takes every entry of [upd], as the store keeps it;
    returns [matched_count] and the collection. An [upd] that cannot be
    encoded is not modelled (the handlers build none). *)
Definition update_one (oid : ObjectId) (upd : document) (coll : list document)
  : result (nat * list document) :=
  match bson_document upd with
  | Some stored => Ok (set_first oid stored coll)
  | None => Unmodelled
  end.

(** [collection.delete_one({"_id": oid})]: returns [deleted_count] and
    the collection. *)
Fixpoint delete_one (oid : ObjectId) (coll : list document)
  : nat * list document :=
  match coll with
  | [] => (O, [])
  | d :: rest =>
      if has_id oid d then (1%nat, rest)
      else let '(n, rest') := delete_one oid rest in (n, d :: rest')
  end.

(** [collection.find(filter)]: the matching documents in collection
    order; [None] when the filter leaves the modelled fragment. *)
Fixpoint find (f : filter) (coll : list document) : option (list document) :=
  match coll with
  | [] => Some []
  | d :: rest =>
      match filter_matches f d, find f rest with
      | Some b, Some ds => Some (if b then d :: ds else ds)
      | _, _ => None
      end
  end.

(** *** The [database] module *)

Definition not_available : string := "Database not available".

(** Modelled from the spec: [create_document] of the [database] module,
    which [main.py] imports and whose source is missing. The spec asks the
    store for "insert-one (returns assigned identifier)" and says that
    create "inserts it" (the validated document) and then returns "the
    newly assigned identifier"; so the document inserted is the model's
    [model_dump()], and the result is the text of the identifier. With no
    store configured there is nothing to insert into: an exception. *)
Definition create_document (db : option database) (fresh : ObjectId)
    (collection_name : string) (data : JobApplication)
  : result string * option database :=
  match db with
  | None => (Raise (Exception not_available), db)
  | Some s =>
      match insert_one fresh (model_dump_items data) (jobapplication s) with
      | Ok coll => (Ok (str_oid fresh), Some (Database coll))
      | Raise e => (Raise e, db)
      | Unmodelled => (Unmodelled, db)
      end
  end.

(** Modelled from the spec: [get_documents] of the [database] module,
    which [main.py] imports and whose source is missing. The spec asks the
    store for "find-many (filter document, limit, returns sequence of
    documents)", "ordered however the store returns them": the matching
    documents in store order, at most [limit] of them. *)
Definition get_documents (db : option database) (collection_name : string)
    (filter_dict : filter) (limit : Z) : result (list document) :=
  match db with
  | None => Raise (Exception not_available)
  | Some s =>
      match find filter_dict (jobapplication s) with
      | Some docs => Ok (take (Z.to_nat limit) docs)
      | None => Unmodelled
      end
  end.

(** ** The handlers of [main.py] *)

(** Truthiness of an optional query parameter: [None] and the empty text
    are false. *)
Definition supplied (p : option string) : option string :=
  match p with
  | Some s => if String.eqb s "" then None else Some s
  | None => None
  end.

(** The filter [list_applications] builds from [status] and [q]. *)
Definition list_filter (status q : option string) : filter :=
  match supplied status with
  | Some st => [Eq "status" st]
  | None => []
  end ++
  match supplied q with
  | Some q =>
      [Or [ ("company", Regex q "i");
            ("position", Regex q "i");
            ("notes", Regex q "i");
            ("tags", ElemMatchRegex q "i") ]]
  | None => []
  end.

Fixpoint all_public (docs : list document) : option (list document) :=
  match docs with
  | [] => Some []
  | d :: rest =>
      p ← to_public d;
      ps ← all_public rest;
      Some (p :: ps)
  end.

Definition default_limit : Z := 100.

(** [GET /api/applications]; [limit] is [None] when the request has no
    such parameter. *)
Definition list_applications (db : option database)
    (status q : option string) (limit : option Z) : result (list document) :=
  match db with
  | None => Raise (HTTPException 500 "Database not configured")
  | Some _ =>
      let filt := list_filter status q in
      match get_documents db "jobapplication" filt (default default_limit limit) with
      | Ok docs => of_option (all_public docs)
      | Raise e => Raise e
      | Unmodelled => Unmodelled
      end
  end.

(** [ObjectId(app_id)] refusing a path parameter: [InvalidId], whose
    message has [repr(app_id)]; not modelled for a text with other than
    ASCII characters. *)
Definition raise_InvalidId {A} (app_id : string) : result A :=
  if is_ascii app_id then Raise (Exception (invalid_id_message app_id))
  else Unmodelled.

(** The [try] block of [create_application]: insert, then fetch the
    created document and return its public form. *)
Definition insert_and_fetch (db : option database) (fresh : ObjectId)
    (payload : JobApplication) : result document * option database :=
  let collection := "jobapplication" in
  match create_document db fresh collection payload with
  | (Ok inserted_id, db') =>
      match db' with
      | None => (Raise (Exception "'NoneType' object is not subscriptable"), db')
      | Some s =>
          match ObjectId_of inserted_id with
          | None => (Raise (Exception (invalid_id_message inserted_id)), db')
          | Some oid =>
              match find_one oid (jobapplication s) with
              | Some doc => (of_option (to_public doc), db')
              | None =>
                  (Raise (Exception "'NoneType' object is not iterable"), db')
              end
          end
      end
  | (Raise e, db') => (Raise e, db')
  | (Unmodelled, db') => (Unmodelled, db')
  end.

(** [POST /api/applications]. *)
Definition create_application (db : option database) (fresh : ObjectId)
    (payload : JobApplication) : result document * option database :=
  let '(r, db') := insert_and_fetch db fresh payload in
  (except_Exception r, db').

(** The [try] block of [update_application]; [now] is
    [datetime.utcnow()]. *)
Definition set_and_fetch (s : database) (now : datetime) (app_id : string)
    (payload : UpdateJobApplication) : result document * database :=
  let update_dict := model_dump_exclude_none payload in
  if dict_is_empty update_dict
  then (Raise (HTTPException 400 "No fields to update"), s)
  else
    let update_dict := <["updated_at" := VDatetime now]> update_dict in
    match ObjectId_of app_id with
    | None => (raise_InvalidId app_id, s)
    | Some oid =>
        match update_one oid update_dict (jobapplication s) with
        | Ok (matched_count, coll) =>
            if (matched_count =? 0)%nat
            then (Raise (HTTPException 404 "Application not found"),
                  Database coll)
            else
              match find_one oid coll with
              | Some doc => (of_option (to_public doc), Database coll)
              | None =>
                  (Raise (Exception "'NoneType' object is not iterable"),
                   Database coll)
              end
        | Raise e => (Raise e, s)
        | Unmodelled => (Unmodelled, s)
        end
    end.

(** [PATCH /api/applications/{app_id}]. *)
Definition update_application (db : option database) (now : datetime)
    (app_id : string) (payload : UpdateJobApplication)
  : result document * option database :=
  match db with
  | None => (Raise (HTTPException 500 "Database not configured"), db)
  | Some s =>
      let '(r, s') := set_and_fetch s now app_id payload in
      (except_HTTPException_raise r, Some s')
  end.

(** [DELETE /api/applications/{app_id}]. *)
Definition delete_application (db : option database) (app_id : string)
  : result unit * option database :=
  match db with
  | None => (Raise (HTTPException 500 "Database not configured"), db)
  | Some s =>
      let '(r, s') :=
        match ObjectId_of app_id with
        | None => (raise_InvalidId app_id, s)
        | Some oid =>
            let '(deleted_count, coll) := delete_one oid (jobapplication s) in
            if (deleted_count =? 0)%nat
            then (Raise (HTTPException 404 "Application not found"), Database coll)
            else (Ok tt, Database coll)
        end in
      (except_HTTPException_raise r, Some s')
  end.

(** ** The routes: validation of the body, the handler, the response *)

Definition map_result {A B} (f : A → B) (r : result A) : result B :=
  match r with
  | Ok a => Ok (f a)
  | Raise e => Raise e
  | Unmodelled => Unmodelled
  end.

Definition GET_applications (db : option database)
    (status q : option string) (limit : option Z) : response :=
  respond 200 (map_result Documents (list_applications db status q limit)).

Definition POST_applications (db : option database) (fresh : ObjectId)
    (b : request_body date) : response * option database :=
  match validate_create b with
  | None => (ValidationError, db)
  | Some payload =>
      let '(r, db') := create_application db fresh payload in
      (respond 201 (map_result Document r), db')
  end.

Definition PATCH_application (db : option database) (now : datetime)
    (app_id : string) (b : request_body string) : response * option database :=
  match validate_update b with
  | None => (ValidationError, db)
  | Some payload =>
      let '(r, db') := update_application db now app_id payload in
      (respond 200 (map_result Document r), db')
  end.

Definition DELETE_application (db : option database) (app_id : string)
  : response * option database :=
  let '(r, db') := delete_application db app_id in
  (respond 204 (map_result (λ _ : unit, NoContent) r), db').

(** ** Vocabulary of the statements *)

(** A query text without regular-expression metacharacters. *)
Definition plain_char (c : ascii) : bool := negb (Ascii.eqb c "." || is_meta c).

Definition plain (q : string) : bool := forallb plain_char (chars q).

(** The field is a text in which [q] occurs, case-insensitively. *)
Definition text_field (q : string) (v : option value) : Prop :=
  ∃ s, v = Some (VStr s) ∧ contains_ci q s.

(** The field is an array with a text element in which [q] occurs. *)
Definition some_tag (q : string) (v : option value) : Prop :=
  ∃ l s, v = Some (VList l) ∧ VStr s ∈ l ∧ contains_ci q s.

Definition not_array (v : option value) : Prop := ∀ l, v ≠ Some (VList l).

Definition query_holds (q : string) (d : document) : Prop :=
  text_field q (d !! "company") ∨ text_field q (d !! "position")
  ∨ text_field q (d !! "notes") ∨ some_tag q (d !! "tags").

Definition status_holds (status : option string) (d : document) : Prop :=
  match supplied status with
  | Some st => d !! "status" = Some (VStr st)
  | None => True
  end.

(** What an update body carries under each key, as a field value. *)
Definition carried {A} (f : A → value) (i : field_input A) : field_input value :=
  match i with
  | Absent => Absent
  | Null => Null
  | Given a => Given (f a)
  | Unparseable => Unparseable
  end.

Definition body_fields (b : request_body string)
  : list (string * field_input value) :=
  [ ("company", carried VStr (b_company b));
    ("position", carried VStr (b_position b));
    ("location", carried VStr (b_location b));
    ("job_link", carried VStr (b_job_link b));
    ("source", carried VStr (b_source b));
    ("status", carried VStr (b_status b));
    ("applied_date", carried VStr (b_applied_date b));
    ("follow_up_date", carried VStr (b_follow_up_date b));
    ("salary_min", carried VNum (b_salary_min b));
    ("salary_max", carried VNum (b_salary_max b));
    ("contact_name", carried VStr (b_contact_name b));
    ("contact_email", carried VStr (b_contact_email b));
    ("resume_version", carried VStr (b_resume_version b));
    ("priority", carried VStr (b_priority b));
    ("tags", carried VTags (b_tags b));
    ("notes", carried VStr (b_notes b)) ].

Definition given (i : field_input value) : option value :=
  match i with Given v => Some v | _ => None end.

(** The body with no key at all. *)
Definition empty_body {D} : request_body D :=
  RequestBody Absent Absent Absent Absent Absent Absent Absent Absent
              Absent Absent Absent Absent Absent Absent Absent Absent.

(** [pub] is the public form of the stored document [raw]: no [_id] key,
    the text of the identifier under [id], no timestamp left, and every
    other field as stored, timestamps as ISO text. *)
Definition public_form (raw pub : document) : Prop :=
  pub !! "_id" = None ∧
  (∃ o, raw !! "_id" = Some (VOid o) ∧ pub !! "id" = Some (VStr (str_oid o))) ∧
  (∀ k t, pub !! k ≠ Some (VDatetime t)) ∧
  (∀ k, k ≠ "_id" → k ≠ "id" → pub !! k = iso_value <$> raw !! k).

(** The identifier the store assigned to a document. *)
Definition doc_oid (d : document) : option ObjectId :=
  match d !! "_id" with
  | Some (VOid o) => Some o
  | _ => None
  end.

(** Every stored document carries an identifier assigned by the store. *)
Definition identified (coll : list document) : Prop :=
  Forall (λ d, is_Some (doc_oid d)) coll.

(** No two stored documents share an identifier. *)
Definition unique_ids (coll : list document) : Prop :=
  NoDup (omap doc_oid coll).

(** Where the first document with a given identifier sits. *)
Inductive located (oid : ObjectId) (coll : list document)
  : option document → Prop :=
| located_none :
    Forall (λ d, has_id oid d = false) coll → located oid coll None
| located_some pre d post :
    coll = pre ++ d :: post →
    Forall (λ d, has_id oid d = false) pre →
    has_id oid d = true →
    located oid coll (Some d).

Definition status_of (r : response) : option Z :=
  match r with
  | Response c _ | ErrorResponse c _ => Some c
  | ValidationError | NotModelled => None
  end.

(** A create body the schema refuses for a reason the specification
    names: a required field is missing, a date or a number does not parse,
    a salary bound is negative. *)
Definition rejected (b : request_body date) : Prop :=
  (∀ c, b_company b ≠ Given c) ∨ (∀ p, b_position b ≠ Given p)
  ∨ b_applied_date b = Unparseable ∨ b_follow_up_date b = Unparseable
  ∨ b_salary_min b = Unparseable ∨ b_salary_max b = Unparseable
  ∨ (∃ x, b_salary_min b = Given x ∧ (x < 0)%Q)
  ∨ (∃ x, b_salary_max b = Given x ∧ (x < 0)%Q).

(** The two store conditions the statements assume. *)
Definition store_ok (db : option database) : Prop :=
  match db with
  | Some s => identified (jobapplication s) ∧ unique_ids (jobapplication s)
  | None => True
  end.

(** ** Sample data for the worked instances *)

Definition id1 : string := "65f1c0de65f1c0de65f1c0de".

Definition oid1 : ObjectId := Oid id1.

Definition t0 : datetime := Datetime 2024 5 17 9 30 0 0.

(** The body [{"company": "Acme Corp", "position": "Engineer",
    "notes": "old"}]. *)
Definition acme_body : request_body date :=
  RequestBody (Given "Acme Corp") (Given "Engineer") Absent Absent Absent Absent
              Absent Absent Absent Absent Absent Absent Absent Absent Absent
              (Given "old").

Definition acme : JobApplication :=
  {| company := "Acme Corp"; position := "Engineer"; location := None;
     job_link := None; source := None; status := "applied";
     applied_date := None; follow_up_date := None; salary_min := None;
     salary_max := None; contact_name := None; contact_email := None;
     resume_version := None; priority := Some "medium"; tags := [];
     notes := Some "old" |}.

Definition acme_doc : document := <["_id" := VOid oid1]> (model_dump acme).

Definition db1 : option database := Some (Database [acme_doc]).

(** The body [{"company": "Initech"}]. *)
Definition company_body : request_body string :=
  RequestBody (Given "Initech") Absent Absent Absent Absent Absent
              Absent Absent Absent Absent Absent Absent Absent Absent Absent
              Absent.

(** The body [{"company": "Initech", "notes": null}]. *)
Definition company_null_notes_body : request_body string :=
  RequestBody (Given "Initech") Absent Absent Absent Absent Absent
              Absent Absent Absent Absent Absent Absent Absent Absent Absent
              Null.

(** The body [{"company": "", "position": ""}]. *)
Definition blank_body : request_body date :=
  RequestBody (Given "") (Given "") Absent Absent Absent Absent
              Absent Absent Absent Absent Absent Absent Absent Absent Absent
              Absent.

(** A stored document whose company is ["abc"]. *)
Definition abc_doc : document :=
  <["_id" := VOid oid1]>
    (model_dump
       {| company := "abc"; position := "dev"; location := None;
          job_link := None; source := None; status := "applied";
          applied_date := None; follow_up_date := None; salary_min := None;
          salary_max := None; contact_name := None; contact_email := None;
          resume_version := None; priority := Some "medium"; tags := ["x"];
          notes := None |}).

(** The field [k] of the only document of a store that holds just one. *)
Definition only_document_field (db : option database) (k : string)
  : option value :=
  match db with
  | Some (Database [d]) => d !! k
  | _ => None
  end.

Definition returned_field (r : response) (k : string) : option value :=
  match r with
  | Response _ (Document d) => d !! k
  | _ => None
  end.

(** The body [{"company": "Acme", "salary_min": -1}], which lacks the
    position. *)
Definition no_position_body : request_body date :=
  RequestBody (Given "Acme") Absent Absent Absent Absent Absent
              Absent Absent (Given (-1)%Q) Absent Absent Absent Absent Absent
              Absent Absent.

(** [company_body] and [company_null_notes_body] once validated. *)
Definition company_update : UpdateJobApplication :=
  {| upd_company := Some "Initech"; upd_position := None;
     upd_location := None; upd_job_link := None; upd_source := None;
     upd_status := None; upd_applied_date := None;
     upd_follow_up_date := None; upd_salary_min := None;
     upd_salary_max := None; upd_contact_name := None;
     upd_contact_email := None; upd_resume_version := None;
     upd_priority := None; upd_tags := None; upd_notes := None;
     model_fields_set := ["company"] |}.

Definition company_null_notes : UpdateJobApplication :=
  {| upd_company := Some "Initech"; upd_position := None;
     upd_location := None; upd_job_link := None; upd_source := None;
     upd_status := None; upd_applied_date := None;
     upd_follow_up_date := None; upd_salary_min := None;
     upd_salary_max := None; upd_contact_name := None;
     upd_contact_email := None; upd_resume_version := None;
     upd_priority := None; upd_tags := None; upd_notes := None;
     model_fields_set := ["company"; "notes"] |}.

(** [empty_body] once validated. *)
Definition no_fields : UpdateJobApplication :=
  {| upd_company := None; upd_position := None;
     upd_location := None; upd_job_link := None; upd_source := None;
     upd_status := None; upd_applied_date := None;
     upd_follow_up_date := None; upd_salary_min := None;
     upd_salary_max := None; upd_contact_name := None;
     upd_contact_email := None; upd_resume_version := None;
     upd_priority := None; upd_tags := None; upd_notes := None;
     model_fields_set := [] |}.

(** [acme_doc] after [company_update] at time [t0], and its public
    form. *)
Definition acme_updated : document :=
  <["updated_at" := VDatetime t0]> {[ "company" := VStr "Initech" ]} ∪ acme_doc.

Definition acme_updated_public : document :=
  iso_value <$> <["id" := VStr id1]> (delete "_id" acme_updated).

Definition acme_public : document :=
  iso_value <$> <["id" := VStr id1]> (delete "_id" acme_doc).

(** A clock value with microseconds, the timestamp the store keeps for
    it, and [acme_doc] after [company_update] at that time. *)
Definition t1 : datetime := Datetime 2024 5 17 9 30 0 (123 * 1000 + 456).

Definition t1_stored : datetime := Datetime 2024 5 17 9 30 0 (123 * 1000).

Definition acme_updated_t1 : document :=
  <["updated_at" := VDatetime t1_stored]> {[ "company" := VStr "Initech" ]}
  ∪ acme_doc.

Definition acme_updated_t1_public : document :=
  iso_value <$> <["id" := VStr id1]> (delete "_id" acme_updated_t1).

(** The bodies [{"company": "Acme", "position": "Engineer",
    "applied_date": "2024-01-02"}] and [{"company": "Acme", "position":
    "Engineer", "follow_up_date": "2024-02-01"}]. *)
Definition dated_body : request_body date :=
  RequestBody (Given "Acme") (Given "Engineer") Absent Absent Absent Absent
              (Given (Date 2024 1 2)) Absent Absent Absent Absent Absent Absent
              Absent Absent Absent.



(** ** The diagnostic endpoint [test_database] *)

(** What [test_database] uses of the database handle: its [name]
    attribute, when it has one, and what [list_collection_names()]
    gives. *)
Inductive names_outcome :=
| Names (collections : list string)
| NamesError (e : exn).

Record db_handle := DbHandle {
  handle_name : option string;
  list_collection_names : names_outcome
}.

(** [os.getenv(k)] used as a condition: set and not empty. *)
Definition env_set (getenv : string → option string) (k : string) : bool :=
  match getenv k with
  | Some v => negb (String.eqb v "")
  | None => false
  end.

(** [str(e)[:50]]: the first 50 characters. *)
Definition first_50 (s : string) : string :=
  string_of_list_ascii (utf8_take 50 (chars s)).

Definition initial_response : document :=
  list_to_map
    [ ("backend", VStr "✅ Running");
      ("database", VStr "❌ Not Available");
      ("database_url", VNull);
      ("database_name", VNull);
      ("connection_status", VStr "Not Connected");
      ("collections", VList []) ].

(** [GET /test]. Of the statements in the outer [try] only
    [list_collection_names()] is taken to raise, and the inner handler
    catches it, so the outer handler has no case here. *)
Definition test_database (db : option db_handle)
    (getenv : string → option string) : document :=
  let response := initial_response in
  let response :=
    match db with
    | Some h =>
        let response := <["database" := VStr "✅ Available"]> response in
        let response := <["database_url" := VStr "✅ Configured"]> response in
        let response :=
          <["database_name" := VStr (default "✅ Connected" (handle_name h))]>
            response in
        let response := <["connection_status" := VStr "Connected"]> response in
        match list_collection_names h with
        | Names collections =>
            let response :=
              <["collections" := VTags (take 10 collections)]> response in
            <["database" := VStr "✅ Connected & Working"]> response
        | NamesError e =>
            <["database" :=
                VStr ("⚠️  Connected but Error: " +:+ first_50 (str_exn e))]>
              response
        end
    | None => <["database" := VStr "⚠️  Available but not initialized"]> response
    end in
  let response :=
    <["database_url" :=
        VStr (if env_set getenv "DATABASE_URL" then "✅ Set" else "❌ Not Set")]>
      response in
  <["database_name" :=
      VStr (if env_set getenv "DATABASE_NAME" then "✅ Set" else "❌ Not Set")]>
    response.

(** ** The example schemas of [schemas.py] *)

Record user_body := UserBody {
  ub_name : field_input string;
  ub_email : field_input string;
  ub_address : field_input string;
  ub_age : field_input Z;
  ub_is_active : field_input bool
}.

(** [schemas.User]. *)
Record User := {
  user_name : string;
  user_email : string;
  user_address : string;
  user_age : option Z;
  user_is_active : bool
}.

(** The constraints [ge=0, le=120] on an optional integer. *)
Definition ge_0_le_120 (x : option Z) : option (option Z) :=
  match x with
  | Some n => if ((0 <=? n) && (n <=? 120))%Z then Some x else None
  | None => Some None
  end.

Definition validate_user (b : user_body) : option User :=
  name ← required (ub_name b);
  email ← required (ub_email b);
  address ← required (ub_address b);
  age ← optional (ub_age b) ≫= ge_0_le_120;
  is_active ← with_default true (ub_is_active b);
  Some {| user_name := name; user_email := email; user_address := address;
          user_age := age; user_is_active := is_active |}.

Record product_body := ProductBody {
  pb_title : field_input string;
  pb_description : field_input string;
  pb_price : field_input Q;
  pb_category : field_input string;
  pb_in_stock : field_input bool
}.

(** [schemas.Product]. *)
Record Product := {
  product_title : string;
  product_description : option string;
  product_price : Q;
  product_category : string;
  product_in_stock : bool
}.

(** The constraint [ge=0] on a required number. *)
Definition price_ge_0 (x : Q) : option Q :=
  if Qle_bool 0 x then Some x else None.

Definition validate_product (b : product_body) : option Product :=
  title ← required (pb_title b);
  description ← optional (pb_description b);
  price ← required (pb_price b) ≫= price_ge_0;
  category ← required (pb_category b);
  in_stock ← with_default true (pb_in_stock b);
  Some {| product_title := title; product_description := description;
          product_price := price; product_category := category;
          product_in_stock := in_stock |}.

(** ** Vocabulary of the further properties *)

(** The field holds a value of its type. *)
Definition is_given {A} (i : field_input A) : Prop := ∃ a, i = Given a.

(** The field is missing or holds a value of its type. *)
Definition absent_or_given {A} (i : field_input A) : Prop :=
  i = Absent ∨ ∃ a, i = Given a.

(** The field is missing, null, or holds a value that is not negative. *)
Definition not_negative (i : field_input Q) : Prop :=
  i ≠ Unparseable ∧ ∀ x, i = Given x → (0 <= x)%Q.

(** The bodies [CreateJobApplication] accepts, field by field. *)
Definition accepted_create (b : request_body date) : Prop :=
  is_given (b_company b) ∧ is_given (b_position b) ∧
  b_location b ≠ Unparseable ∧ b_job_link b ≠ Unparseable ∧
  b_source b ≠ Unparseable ∧ absent_or_given (b_status b) ∧
  b_applied_date b ≠ Unparseable ∧ b_follow_up_date b ≠ Unparseable ∧
  not_negative (b_salary_min b) ∧ not_negative (b_salary_max b) ∧
  b_contact_name b ≠ Unparseable ∧ b_contact_email b ≠ Unparseable ∧
  b_resume_version b ≠ Unparseable ∧ b_priority b ≠ Unparseable ∧
  absent_or_given (b_tags b) ∧ b_notes b ≠ Unparseable.

(** The bodies [UpdateJobApplication] accepts, field by field. *)
Definition accepted_update (b : request_body string) : Prop :=
  b_company b ≠ Unparseable ∧ b_position b ≠ Unparseable ∧
  b_location b ≠ Unparseable ∧ b_job_link b ≠ Unparseable ∧
  b_source b ≠ Unparseable ∧ b_status b ≠ Unparseable ∧
  b_applied_date b ≠ Unparseable ∧ b_follow_up_date b ≠ Unparseable ∧
  b_salary_min b ≠ Unparseable ∧ b_salary_max b ≠ Unparseable ∧
  b_contact_name b ≠ Unparseable ∧ b_contact_email b ≠ Unparseable ∧
  b_resume_version b ≠ Unparseable ∧ b_priority b ≠ Unparseable ∧
  b_tags b ≠ Unparseable ∧ b_notes b ≠ Unparseable.

(** [b] with its two salary bounds replaced. *)
Definition with_salaries {D} (b : request_body D) (lo hi : field_input Q)
  : request_body D :=
  RequestBody (b_company b) (b_position b) (b_location b) (b_job_link b)
              (b_source b) (b_status b) (b_applied_date b)
              (b_follow_up_date b) lo hi (b_contact_name b)
              (b_contact_email b) (b_resume_version b) (b_priority b)
              (b_tags b) (b_notes b).

(** The body [{"salary_min": x}]. *)
Definition salary_min_body (x : Q) : request_body string :=
  with_salaries empty_body (Given x) Absent.

(** The field is the text [t], or an array that holds it. *)
Definition is_or_holds (t : string) (v : option value) : Prop :=
  v = Some (VStr t) ∨ ∃ l, v = Some (VList l) ∧ VStr t ∈ l.

(** ** Sample data for the further properties *)

(** A handle whose [list_collection_names()] fails. *)
Definition failing_handle : db_handle :=
  DbHandle (Some "tracker") (NamesError (Exception "connection refused")).

(** A handle whose listing fails with a message of 70 characters, 75
    bytes. *)
Definition refusing_handle : db_handle :=
  DbHandle (Some "tracker")
    (NamesError (Exception
       "connexion refusée par le serveur de données à l’adresse 10.0.0.1:27017")).

Definition no_env : string → option string := λ _, None.

(** An environment in which [DATABASE_URL] is set to the empty text. *)
Definition empty_url_env : string → option string :=
  λ k, if String.eqb k "DATABASE_URL" then Some "" else None.

(** A stored document that lacks [_id]. *)
Definition loose_doc : document :=
  {[ "company" := VStr "Acme"; "seen" := VList [VDatetime t0] ]}.

(** The body [{"name": "Ada", "email": "a@b.c", "address": "x",
    "age": 120}]. *)
Definition ada_body : user_body :=
  UserBody (Given "Ada") (Given "a@b.c") (Given "x") (Given 120%Z) Absent.

(** The body [{"title": "Pen", "price": 0, "category": "office"}]. *)
Definition pen_body : product_body :=
  ProductBody (Given "Pen") Absent (Given 0%Q) (Given "office") Absent.

(** * Lemmas *)

(** ** Literal patterns search for a substring *)

Lemma regex_compile_plain l :
  forallb plain_char l = true → regex_compile l = Some (Lit <$> l).
Proof.
  induction l as [|c l IH]; simpl; [done|].
  rewrite andb_true_iff. intros [Hc Hl]. rewrite (IH Hl).
  unfold plain_char in Hc. apply negb_true_iff, orb_false_iff in Hc as [-> ->].
  done.
Qed.

Lemma match_here_literal q s :
  match_here true (Lit <$> q) s = true ↔ ∃ post, lower s = lower q ++ post.
Proof.
  revert s. induction q as [|x q IH]; intros s; simpl.
  - split; [eauto|done].
  - destruct s as [|c s]; simpl.
    + split; [done|]. intros [post H]. discriminate.
    + rewrite andb_true_iff, Ascii.eqb_eq, IH. split.
      * intros [-> [post ->]]. eauto.
      * intros [post H]. injection H as Hc Hs. eauto.
Qed.

Lemma search_literal q s :
  search true (Lit <$> q) s = true
  ↔ ∃ pre post, lower s = pre ++ lower q ++ post.
Proof.
  induction s as [|c s IH].
  - simpl. rewrite orb_false_r, match_here_literal. split.
    + intros [post H]. by exists [], post.
    + intros (pre & post & H). simpl in H.
      symmetry in H. apply app_eq_nil in H as [-> H]. exists post. by rewrite H.
  - cbn [search]. rewrite orb_true_iff, match_here_literal, IH. split.
    + intros [[post H]|(pre & post & H)].
      * by exists [], post.
      * exists (lower_ascii c :: pre), post. simpl. by rewrite H.
    + intros (pre & post & H). destruct pre as [|p pre].
      * left. by exists post.
      * right. simpl in H. injection H as _ H. eauto.
Qed.

Lemma search_contains_ci q s :
  search true (Lit <$> chars q) (chars s) = true ↔ contains_ci q s.
Proof. apply search_literal. Qed.

Lemma text_matches_literal q l :
  existsb (text_matches true (Lit <$> chars q)) l = true
  ↔ ∃ s, VStr s ∈ l ∧ contains_ci q s.
Proof.
  rewrite existsb_exists. split.
  - intros (v & Hin & Hm). destruct v; try discriminate.
    apply list_elem_of_In in Hin. apply search_contains_ci in Hm. eauto.
  - intros (s & Hin & Hc). exists (VStr s). split; [by apply list_elem_of_In|].
    by apply search_contains_ci.
Qed.

Lemma regex_on_text q v :
  not_array v →
  match v with
  | Some (VStr s) => search true (Lit <$> chars q) (chars s)
  | Some (VList l) => existsb (text_matches true (Lit <$> chars q)) l
  | _ => false
  end = true ↔ text_field q v.
Proof.
  intros Hv. unfold text_field. destruct v as [[]|]; cbn beta iota;
    try (by edestruct Hv);
    try (split; [done|intros (? & ? & _); congruence]).
  rewrite search_contains_ci. split; [eauto|]. by intros (s' & [= <-] & ?).
Qed.

Lemma elem_match_on_tags q v :
  match v with
  | Some (VList l) => existsb (text_matches true (Lit <$> chars q)) l
  | _ => false
  end = true ↔ some_tag q v.
Proof.
  unfold some_tag. destruct v as [[]|]; cbn beta iota;
    try (split; [done|intros (? & ? & ? & _); congruence]).
  rewrite text_matches_literal. split.
  - intros (s & ? & ?). eauto.
  - intros (l' & s & [= <-] & ? & ?). eauto.
Qed.

Lemma equals_text_scalar t v :
  not_array v → equals_text t v = true ↔ v = Some (VStr t).
Proof.
  intros Hv. destruct v as [[]|]; simpl; try (by edestruct Hv); try done.
  rewrite String.eqb_eq. split; congruence.
Qed.

Lemma supplied_Some q : q ≠ "" → supplied (Some q) = Some q.
Proof.
  intros Hq. simpl. destruct (String.eqb q "") eqn:E; [|done].
  by apply String.eqb_eq in E.
Qed.

Lemma any_matches_query q d :
  plain q = true →
  not_array (d !! "company") → not_array (d !! "position") →
  not_array (d !! "notes") →
  ∃ b, any_matches [ ("company", Regex q "i"); ("position", Regex q "i");
                     ("notes", Regex q "i"); ("tags", ElemMatchRegex q "i") ] d
       = Some b ∧ (b = true ↔ query_holds q d).
Proof.
  intros Hq Hc Hp Hn. unfold plain in Hq. apply regex_compile_plain in Hq.
  cbn [any_matches operator_matches]. rewrite Hq.
  change (regex_options "i") with (Some true). cbn [mbind option_bind].
  eexists. split; [reflexivity|].
  unfold query_holds.
  rewrite orb_false_r, !orb_true_iff.
  by rewrite !regex_on_text, elem_match_on_tags.
Qed.

(** ** Validation *)

Lemma validate_create_Some b m :
  validate_create b = Some m →
  required (b_company b) = Some (company m) ∧
  required (b_position b) = Some (position m) ∧
  with_default "applied" (b_status b) = Some (status m) ∧
  optional (b_applied_date b) = Some (applied_date m) ∧
  optional (b_follow_up_date b) = Some (follow_up_date m) ∧
  optional (b_salary_min b) ≫= ge_0 = Some (salary_min m) ∧
  optional (b_salary_max b) ≫= ge_0 = Some (salary_max m) ∧
  optional_with_default "medium" (b_priority b) = Some (priority m) ∧
  with_default [] (b_tags b) = Some (tags m).
Proof.
  unfold validate_create. intros H.
  apply bind_Some in H as (c & Hc & H).
  apply bind_Some in H as (p & Hp & H).
  apply bind_Some in H as (? & _ & H).
  apply bind_Some in H as (? & _ & H).
  apply bind_Some in H as (? & _ & H).
  apply bind_Some in H as (st & Hst & H).
  apply bind_Some in H as (ad & Had & H).
  apply bind_Some in H as (fd & Hfd & H).
  apply bind_Some in H as (smin & Hsmin & H).
  apply bind_Some in H as (smax & Hsmax & H).
  apply bind_Some in H as (? & _ & H).
  apply bind_Some in H as (? & _ & H).
  apply bind_Some in H as (? & _ & H).
  apply bind_Some in H as (pr & Hpr & H).
  apply bind_Some in H as (tg & Htg & H).
  apply bind_Some in H as (? & _ & H).
  injection H as <-. simpl. done.
Qed.

Lemma optional_given {A} (f : A → value) i x :
  optional i = Some x → f <$> x = given (carried f i).
Proof. destruct i; simpl; intros [= <-]; done. Qed.

Lemma validate_update_fields b p :
  validate_update b = Some p →
  update_fields p = (λ kv, (kv.1, given kv.2)) <$> body_fields b.
Proof.
  unfold validate_update. intros H.
  repeat (apply bind_Some in H as (? & ? & H)).
  injection H as <-. unfold update_fields, body_fields.
  cbn [fmap list_fmap fst snd
    upd_company upd_position upd_location upd_job_link upd_source upd_status
    upd_applied_date upd_follow_up_date upd_salary_min upd_salary_max
    upd_contact_name upd_contact_email upd_resume_version upd_priority upd_tags
    upd_notes].
  repeat match goal with
         | H : optional _ = Some _ |- _ =>
             rewrite (optional_given _ _ _ H); clear H
         end.
  reflexivity.
Qed.

Lemma exclude_none_keys l : sublist (exclude_none l).*1 l.*1.
Proof.
  induction l as [|[k [v|]] l IH]; simpl; [done|by constructor..].
Qed.

Lemma update_fields_keys p :
  (update_fields p).*1 =
  ["company"; "position"; "location"; "job_link"; "source"; "status";
   "applied_date"; "follow_up_date"; "salary_min"; "salary_max";
   "contact_name"; "contact_email"; "resume_version"; "priority"; "tags";
   "notes"].
Proof. reflexivity. Qed.

Lemma update_fields_NoDup p : NoDup (update_fields p).*1.
Proof.
  rewrite update_fields_keys.
  refine (bool_decide_unpack (NoDup _) _). by vm_compute.
Qed.

Lemma model_dump_exclude_none_lookup p k v :
  model_dump_exclude_none p !! k = Some v ↔ (k, Some v) ∈ update_fields p.
Proof.
  unfold model_dump_exclude_none.
  rewrite <- elem_of_list_to_map
    by (eapply sublist_NoDup; [apply update_fields_NoDup|apply exclude_none_keys]).
  unfold exclude_none. rewrite list_elem_of_omap. split.
  - intros ([k' [v'|]] & Hin & Heq); simpl in Heq; [|done].
    by injection Heq as -> ->.
  - intros Hin. by exists (k, Some v).
Qed.

Lemma model_dump_exclude_none_key p k :
  is_Some (model_dump_exclude_none p !! k) → k ∈ (update_fields p).*1.
Proof.
  intros [v Hv]. apply model_dump_exclude_none_lookup in Hv.
  apply list_elem_of_fmap. by exists (k, Some v).
Qed.

(** ** The store *)

Lemma has_id_true oid (d : document) :
  has_id oid d = true ↔ d !! "_id" = Some (VOid oid).
Proof.
  unfold has_id. destruct (d !! "_id") as [[]|]; try (split; congruence).
  rewrite bool_decide_eq_true. split; congruence.
Qed.

Lemma find_one_located oid coll : located oid coll (find_one oid coll).
Proof.
  unfold find_one. induction coll as [|d coll IH]; simpl.
  - by constructor.
  - destruct (has_id oid d) eqn:E.
    + by apply (located_some _ _ [] d coll).
    + inversion IH as [Hall Heq|pre d' post -> Hpre Hd Heq].
      * constructor. by constructor.
      * apply (located_some _ _ (d :: pre) d' post); [done| |done].
        by constructor.
Qed.

Lemma find_one_app oid pre (d : document) post :
  Forall (λ d, has_id oid d = false) pre → has_id oid d = true →
  find_one oid (pre ++ d :: post) = Some d.
Proof.
  unfold find_one. intros Hpre Hd. induction Hpre as [|x pre Hx _ IH]; simpl.
  - by rewrite Hd.
  - by rewrite Hx.
Qed.

Lemma find_one_none oid coll :
  Forall (λ d, has_id oid d = false) coll → find_one oid coll = None.
Proof.
  unfold find_one. induction 1 as [|x l Hx _ IH]; simpl; [done|by rewrite Hx].
Qed.

Lemma set_first_none oid upd coll :
  Forall (λ d, has_id oid d = false) coll → set_first oid upd coll = (O, coll).
Proof.
  induction 1 as [|x l Hx _ IH]; simpl; [done|]. by rewrite Hx, IH.
Qed.

Lemma set_first_app oid upd pre (d : document) post :
  Forall (λ d, has_id oid d = false) pre → has_id oid d = true →
  set_first oid upd (pre ++ d :: post) = (1%nat, pre ++ (upd ∪ d) :: post).
Proof.
  intros Hpre Hd. induction Hpre as [|x pre Hx _ IH]; simpl.
  - by rewrite Hd.
  - by rewrite Hx, IH.
Qed.

(** ** What the store keeps *)

Lemma bson_values_cons encode x l :
  bson_values encode (x :: l)
  = match encode x with
    | inl d => inl d
    | inr y => match bson_values encode l with
               | inl d => inl d
               | inr ys => inr (y :: ys)
               end
    end.
Proof. reflexivity. Qed.

Lemma bson_values_text (l : list string) :
  bson_values bson_value (VStr <$> l) = inr (VStr <$> l).
Proof.
  induction l as [|x l IH]; [done|].
  rewrite fmap_cons, bson_values_cons, IH. done.
Qed.

Lemma bson_value_tags l : bson_value (VTags l) = inr (VTags l).
Proof.
  unfold VTags.
  change (match bson_values bson_value (VStr <$> l) with
          | inl d => inl d
          | inr l' => inr (VList l')
          end = inr (VList (VStr <$> l))).
  by rewrite bson_values_text.
Qed.

Lemma bson_value_or_null_text (o : option string) :
  bson_value (or_null (VStr <$> o)) = inr (or_null (VStr <$> o)).
Proof. by destruct o. Qed.

Lemma bson_value_or_null_number (o : option Q) :
  bson_value (or_null (VNum <$> o)) = inr (or_null (VNum <$> o)).
Proof. by destruct o. Qed.

Lemma bson_items_kept (l : list (string * value)) :
  Forall (λ kv, bson_value kv.2 = inr kv.2) l → bson_items l = inr l.
Proof.
  induction 1 as [|[k v] l Hv _ IH]; simpl in *; [done|]. by rewrite Hv, IH.
Qed.

(** A model without dates is stored as it is dumped. *)
Lemma bson_items_model_dump m :
  applied_date m = None → follow_up_date m = None →
  bson_items (model_dump_items m) = inr (model_dump_items m).
Proof.
  intros Ha Hf. apply bson_items_kept. unfold model_dump_items.
  rewrite Ha, Hf.
  repeat (apply Forall_cons; split;
          [first [done|apply bson_value_or_null_text
                 |apply bson_value_or_null_number|apply bson_value_tags]|]).
  constructor.
Qed.

Lemma update_value_stored p k v :
  model_dump_exclude_none p !! k = Some v → stored_value v = Some v.
Proof.
  intros H. apply model_dump_exclude_none_lookup in H.
  unfold update_fields in H. unfold stored_value.
  repeat (apply elem_of_cons in H as [H|H];
          [injection H as _ H;
           match type of H with
           | _ = _ <$> ?o => destruct o; [|done]
           end; injection H as ->; first [done|by rewrite bson_value_tags]|]).
  by apply not_elem_of_nil in H.
Qed.

Lemma bson_update_dict p now :
  bson_document (<["updated_at" := VDatetime now]> (model_dump_exclude_none p))
  = Some (<["updated_at" := VDatetime (to_milliseconds now)]>
            (model_dump_exclude_none p)).
Proof.
  unfold bson_document. rewrite decide_True.
  - f_equal. apply map_eq. intros k. rewrite lookup_omap.
    destruct (decide (k = "updated_at")) as [->|Hk].
    + by rewrite !lookup_insert_eq.
    + rewrite !lookup_insert_ne by done.
      destruct (model_dump_exclude_none p !! k) as [v|] eqn:E; [|done].
      simpl. by apply update_value_stored in E.
  - apply map_Forall_insert_2; [by eexists|].
    intros k v Hv. rewrite (update_value_stored _ _ _ Hv). by eexists.
Qed.

Lemma update_one_update_dict oid p now coll :
  update_one oid (<["updated_at" := VDatetime now]> (model_dump_exclude_none p))
             coll
  = Ok (set_first oid (<["updated_at" := VDatetime (to_milliseconds now)]>
                         (model_dump_exclude_none p)) coll).
Proof. unfold update_one. by rewrite bson_update_dict. Qed.

Lemma delete_one_none oid coll :
  Forall (λ d, has_id oid d = false) coll → delete_one oid coll = (O, coll).
Proof.
  induction 1 as [|x l Hx _ IH]; simpl; [done|]. by rewrite Hx, IH.
Qed.

Lemma delete_one_app oid pre (d : document) post :
  Forall (λ d, has_id oid d = false) pre → has_id oid d = true →
  delete_one oid (pre ++ d :: post) = (1%nat, pre ++ post).
Proof.
  intros Hpre Hd. induction Hpre as [|x pre Hx _ IH]; simpl.
  - by rewrite Hd.
  - by rewrite Hx, IH.
Qed.

Lemma has_id_union oid (upd d : document) :
  upd !! "_id" = None → has_id oid (upd ∪ d) = has_id oid d.
Proof.
  intros Hupd. unfold has_id. by rewrite lookup_union_r.
Qed.

(** ** [to_public] *)

Lemma to_public_oid (d : document) o :
  d !! "_id" = Some (VOid o) →
  to_public d
  = Some (iso_value <$> <["id" := VStr (str_oid o)]> (delete "_id" d)).
Proof. intros H. unfold to_public, move_id. by rewrite H. Qed.

Lemma iso_value_not_datetime v t : iso_value v ≠ VDatetime t.
Proof. by destruct v. Qed.

Lemma to_public_form (raw pub : document) o :
  raw !! "_id" = Some (VOid o) → to_public raw = Some pub → public_form raw pub.
Proof.
  intros Hid. rewrite (to_public_oid _ _ Hid). intros [= <-].
  repeat split.
  - rewrite lookup_fmap, lookup_insert_ne, lookup_delete_eq by done. done.
  - exists o. split; [done|]. by rewrite lookup_fmap, lookup_insert_eq.
  - intros k t. rewrite lookup_fmap.
    destruct (_ !! k) as [v|]; simpl; [|done].
    intros [= H]. by apply iso_value_not_datetime in H.
  - intros k H1 H2.
    by rewrite lookup_fmap, lookup_insert_ne, lookup_delete_ne.
Qed.

(** ** The update handler *)

Lemma dict_is_empty_true (d : document) : dict_is_empty d = true ↔ d = ∅.
Proof.
  unfold dict_is_empty. rewrite <- map_to_list_empty_iff.
  destruct (map_to_list d); split; congruence.
Qed.

Lemma model_dump_exclude_none_no_key p k :
  k ∉ (update_fields p).*1 → model_dump_exclude_none p !! k = None.
Proof.
  intros Hk. apply eq_None_not_Some. intros H.
  by apply model_dump_exclude_none_key in H.
Qed.

Lemma update_dict_no_id p now :
  (<["updated_at" := VDatetime now]> (model_dump_exclude_none p) : document)
    !! "_id" = None.
Proof.
  rewrite lookup_insert_ne by done.
  apply model_dump_exclude_none_no_key. rewrite update_fields_keys.
  refine (bool_decide_unpack (_ ∉ _) _). by vm_compute.
Qed.

Lemma update_dict_no_updated_at p :
  model_dump_exclude_none p !! "updated_at" = None.
Proof.
  apply model_dump_exclude_none_no_key. rewrite update_fields_keys.
  refine (bool_decide_unpack (_ ∉ _) _). by vm_compute.
Qed.


Lemma database_eta s : Database (jobapplication s) = s.
Proof. by destruct s. Qed.

Lemma set_and_fetch_empty s now app_id p :
  model_dump_exclude_none p = ∅ →
  set_and_fetch s now app_id p
  = (Raise (HTTPException 400 "No fields to update"), s).
Proof.
  intros H. unfold set_and_fetch.
  by rewrite (proj2 (dict_is_empty_true _) H).
Qed.

Lemma set_and_fetch_invalid s now app_id p :
  model_dump_exclude_none p ≠ ∅ → ObjectId_of app_id = None →
  set_and_fetch s now app_id p = (raise_InvalidId app_id, s).
Proof.
  intros H Hid. unfold set_and_fetch. rewrite Hid.
  destruct (dict_is_empty _) eqn:E; [|done].
  by apply dict_is_empty_true in E.
Qed.

Lemma set_and_fetch_missing s now app_id p oid :
  model_dump_exclude_none p ≠ ∅ → ObjectId_of app_id = Some oid →
  Forall (λ d, has_id oid d = false) (jobapplication s) →
  set_and_fetch s now app_id p
  = (Raise (HTTPException 404 "Application not found"), s).
Proof.
  intros H Hid Hall. unfold set_and_fetch. rewrite Hid.
  destruct (dict_is_empty _) eqn:E; [by apply dict_is_empty_true in E|].
  rewrite update_one_update_dict, (set_first_none _ _ _ Hall). simpl.
  by rewrite database_eta.
Qed.

Lemma set_and_fetch_found s now app_id p oid pre d post :
  model_dump_exclude_none p ≠ ∅ → ObjectId_of app_id = Some oid →
  jobapplication s = pre ++ d :: post →
  Forall (λ d, has_id oid d = false) pre → has_id oid d = true →
  let d' := <["updated_at" := VDatetime (to_milliseconds now)]>
              (model_dump_exclude_none p) ∪ d in
  set_and_fetch s now app_id p
  = (of_option (to_public d'), Database (pre ++ d' :: post)).
Proof.
  intros H Hid Hs Hpre Hd d'. unfold set_and_fetch. rewrite Hid, Hs.
  destruct (dict_is_empty _) eqn:E; [by apply dict_is_empty_true in E|].
  rewrite update_one_update_dict, (set_first_app _ _ _ _ _ Hpre Hd). simpl.
  rewrite find_one_app; [done|done|].
  by rewrite has_id_union by apply update_dict_no_id.
Qed.

(** The updated document: the fields of the update dict and [updated_at]
    take their new values, every other field keeps its own. *)
Lemma updated_document_lookup p now (d : document) k :
  (<["updated_at" := VDatetime now]> (model_dump_exclude_none p) ∪ d) !! k
  = if decide (k = "updated_at") then Some (VDatetime now)
    else match model_dump_exclude_none p !! k with
         | Some v => Some v
         | None => d !! k
         end.
Proof.
  rewrite lookup_union. case_decide as Hk.
  - subst k. rewrite lookup_insert_eq. by destruct (d !! _).
  - rewrite lookup_insert_ne by done.
    destruct (model_dump_exclude_none p !! k), (d !! k); done.
Qed.

(** A successful update found its document. *)
Lemma update_application_Ok db now app_id p pub db' :
  update_application db now app_id p = (Ok pub, db') →
  ∃ s oid pre d post,
    db = Some s ∧ model_dump_exclude_none p ≠ ∅ ∧
    ObjectId_of app_id = Some oid ∧
    jobapplication s = pre ++ d :: post ∧
    Forall (λ d, has_id oid d = false) pre ∧ has_id oid d = true ∧
    let d' := <["updated_at" := VDatetime (to_milliseconds now)]>
                (model_dump_exclude_none p) ∪ d in
    to_public d' = Some pub ∧ db' = Some (Database (pre ++ d' :: post)).
Proof.
  unfold update_application. destruct db as [s|]; [|done].
  destruct (decide (model_dump_exclude_none p = ∅)) as [He|He].
  { by rewrite (set_and_fetch_empty _ _ _ _ He). }
  destruct (ObjectId_of app_id) as [oid|] eqn:Hid.
  2:{ rewrite (set_and_fetch_invalid _ _ _ _ He Hid). unfold raise_InvalidId.
      by destruct (is_ascii app_id). }
  destruct (find_one_located oid (jobapplication s)) as [Hall|pre d post Hs Hpre Hd].
  { by rewrite (set_and_fetch_missing _ _ _ _ _ He Hid Hall). }
  rewrite (set_and_fetch_found _ _ _ _ _ _ _ _ He Hid Hs Hpre Hd).
  cbn zeta. destruct (to_public _) as [pub'|] eqn:Hp; simpl; [|done].
  intros [= <- <-]. by exists s, oid, pre, d, post.
Qed.


(** ** The delete handler *)

Lemma delete_application_missing s app_id oid :
  ObjectId_of app_id = Some oid →
  Forall (λ d, has_id oid d = false) (jobapplication s) →
  delete_application (Some s) app_id
  = (Raise (HTTPException 404 "Application not found"), Some s).
Proof.
  intros Hid Hall. unfold delete_application. rewrite Hid.
  rewrite (delete_one_none _ _ Hall). simpl. by rewrite database_eta.
Qed.

Lemma delete_application_found s app_id oid pre d post :
  ObjectId_of app_id = Some oid →
  jobapplication s = pre ++ d :: post →
  Forall (λ d, has_id oid d = false) pre → has_id oid d = true →
  delete_application (Some s) app_id = (Ok tt, Some (Database (pre ++ post))).
Proof.
  intros Hid Hs Hpre Hd. unfold delete_application. rewrite Hid, Hs.
  by rewrite (delete_one_app _ _ _ _ Hpre Hd).
Qed.

Lemma doc_oid_has_id oid (d : document) :
  has_id oid d = true ↔ doc_oid d = Some oid.
Proof.
  rewrite has_id_true. unfold doc_oid.
  destruct (d !! "_id") as [[]|]; split; congruence.
Qed.

Lemma not_in_ids oid coll :
  oid ∉ omap doc_oid coll → Forall (λ d, has_id oid d = false) coll.
Proof.
  intros Hnin. apply Forall_forall. intros d Hd.
  destruct (has_id oid d) eqn:E; [|done]. exfalso. apply Hnin.
  apply list_elem_of_omap. exists d. split; [done|]. by apply doc_oid_has_id.
Qed.

Lemma unique_ids_after oid pre (d : document) post :
  unique_ids (pre ++ d :: post) → has_id oid d = true →
  Forall (λ d, has_id oid d = false) post.
Proof.
  unfold unique_ids. rewrite omap_app. simpl.
  intros Hnd Hd. apply doc_oid_has_id in Hd. rewrite Hd in Hnd.
  apply NoDup_app in Hnd as (_ & _ & Hnd). apply NoDup_cons in Hnd as [Hnin _].
  by apply not_in_ids.
Qed.

(** ** The create handler *)

Lemma lower_hex_is_hex c : is_lower_hex c = true → is_hex c = true.
Proof. unfold is_hex, is_lower_hex. cbn zeta. intros H. by rewrite H. Qed.

Lemma lower_hex_fixed c : is_lower_hex c = true → lower_ascii c = c.
Proof.
  unfold is_lower_hex, lower_ascii, is_upper, is_digit. cbn zeta.
  intros H.
  destruct ((65 <=? nat_of_ascii c)%nat && (nat_of_ascii c <=? 90)%nat) eqn:E;
    [|done].
  exfalso.
  apply andb_true_iff in E as [E1 E2].
  apply Nat.leb_le in E1, E2.
  apply orb_true_iff in H as [H|H]; apply andb_true_iff in H as [H1 H2];
    apply Nat.leb_le in H1, H2; lia.
Qed.

Lemma lower_hex_range c :
  is_lower_hex c = true →
  (48 ≤ nat_of_ascii c ≤ 57 ∨ 97 ≤ nat_of_ascii c ≤ 102)%nat.
Proof.
  unfold is_lower_hex, is_digit. cbn zeta. intros H.
  apply orb_true_iff in H as [H|H]; apply andb_true_iff in H as [H1 H2];
    apply Nat.leb_le in H1, H2; lia.
Qed.

Lemma lower_hex_not_continuation c :
  is_lower_hex c = true → is_continuation c = false.
Proof.
  intros H%lower_hex_range. unfold is_continuation. cbn zeta.
  apply not_true_is_false. intros H'. apply andb_true_iff in H' as [H1 H2].
  apply Nat.leb_le in H1. lia.
Qed.

Lemma lower_hex_not_space c : is_lower_hex c = true → is_space c = false.
Proof.
  intros H%lower_hex_range. unfold is_space. cbn zeta.
  apply not_true_is_false. intros H'. apply orb_true_iff in H' as [H'|H'].
  - apply andb_true_iff in H' as [H1 H2]. apply Nat.leb_le in H2. lia.
  - apply Nat.eqb_eq in H'. lia.
Qed.

Lemma utf8_length_lower_hex l :
  forallb is_lower_hex l = true → utf8_length l = length l.
Proof.
  induction l as [|c l IH]; simpl; [done|]. intros H.
  apply andb_true_iff in H as [Hc Hl].
  by rewrite (lower_hex_not_continuation _ Hc), (IH Hl).
Qed.

Lemma fromhex_lower_hex n l :
  length l = (2 * n)%nat → forallb is_lower_hex l = true → fromhex l = Some l.
Proof.
  revert l. induction n as [|n IH]; intros [|c [|d l]] Hlen Hall;
    simpl in Hlen; try lia; [done|].
  cbn [forallb] in Hall.
  apply andb_true_iff in Hall as [Hc Hall].
  apply andb_true_iff in Hall as [Hd Hall].
  cbn [fromhex].
  rewrite (lower_hex_not_space _ Hc), (lower_hex_is_hex _ Hc),
    (lower_hex_is_hex _ Hd), (lower_hex_fixed _ Hc), (lower_hex_fixed _ Hd).
  rewrite IH; [done|lia|done].
Qed.

Lemma canonical_roundtrip o :
  canonical o = true → ObjectId_of (str_oid o) = Some o.
Proof.
  destruct o as [h]. unfold canonical, ObjectId_of, py_len. simpl.
  intros H. apply andb_true_iff in H as [Hlen Hall].
  rewrite (utf8_length_lower_hex _ Hall), Hlen.
  apply Nat.eqb_eq in Hlen.
  rewrite (fromhex_lower_hex 12 _ Hlen Hall).
  unfold chars. by rewrite string_of_list_ascii_of_string.
Qed.

Lemma existsb_has_id_false oid coll :
  existsb (has_id oid) coll = false → Forall (λ d, has_id oid d = false) coll.
Proof.
  induction coll as [|d coll IH]; simpl; [done|].
  intros H. apply orb_false_iff in H as [Hd Hc]. constructor; auto.
Qed.

(** What creating into a configured store does when the model has no
    date and the identifier is new: the document is appended and read
    back. *)
Lemma insert_and_fetch_fresh s fresh payload :
  applied_date payload = None → follow_up_date payload = None →
  canonical fresh = true →
  existsb (has_id fresh) (jobapplication s) = false →
  let doc := <["_id" := VOid fresh]> (model_dump payload) in
  insert_and_fetch (Some s) fresh payload
  = (of_option (to_public doc), Some (Database (jobapplication s ++ [doc]))).
Proof.
  intros Ha Hfd Hc Hf doc. unfold insert_and_fetch, create_document, insert_one.
  rewrite (bson_items_model_dump _ Ha Hfd), Hf.
  fold (model_dump payload). fold doc.
  cbn [jobapplication]. rewrite (canonical_roundtrip _ Hc).
  rewrite find_one_app; [done|by apply existsb_has_id_false|].
  apply has_id_true. apply lookup_insert_eq.
Qed.

(** Whatever the store and the payload, the [try] block ends in the
    public form of a stored document with an identifier, or in an
    exception. *)
Lemma insert_and_fetch_cases db fresh payload :
  (∃ e db', insert_and_fetch db fresh payload = (Raise e, db')) ∨
  (∃ s' doc pub o, insert_and_fetch db fresh payload = (Ok pub, Some s') ∧
     doc ∈ jobapplication s' ∧ doc !! "_id" = Some (VOid o) ∧
     to_public doc = Some pub).
Proof.
  unfold insert_and_fetch, create_document.
  destruct db as [s|]; [|left; eauto].
  destruct (insert_one _ _ _) as [coll|e|] eqn:Hins; [|left; eauto|].
  2:{ unfold insert_one in Hins.
      destruct (bson_items _); [done|]. by destruct (existsb _ _). }
  cbn [jobapplication].
  destruct (ObjectId_of _) as [oid|]; [|left; eauto].
  destruct (find_one_located oid coll) as [Hall|pre d post Hs Hpre Hd];
    [left; eauto|].
  apply has_id_true in Hd as Hid. rewrite (to_public_oid _ _ Hid). simpl.
  right. eexists (Database coll), d, _, oid. repeat split; [|done|].
  - simpl. rewrite Hs. set_solver.
  - by apply to_public_oid.
Qed.

(** ** The list handler *)

Lemma find_sublist f coll docs : find f coll = Some docs → sublist docs coll.
Proof.
  revert docs. induction coll as [|d coll IH]; simpl; intros docs.
  - by intros [= <-].
  - destruct (filter_matches f d) as [b|]; [|done].
    destruct (find f coll) as [ds|]; [|done].
    intros [= <-]. destruct b; constructor; auto.
Qed.

Lemma find_no_match f coll :
  Forall (λ d, filter_matches f d = Some false) coll → find f coll = Some [].
Proof.
  induction 1 as [|d coll Hd _ IH]; simpl; [done|]. by rewrite Hd, IH.
Qed.

Lemma all_public_Forall2 docs pubs :
  all_public docs = Some pubs →
  Forall2 (λ raw pub, to_public raw = Some pub) docs pubs.
Proof.
  revert pubs. induction docs as [|d docs IH]; simpl; intros pubs.
  - intros [= <-]. constructor.
  - destruct (to_public d) as [p|] eqn:Hp; [|done]. simpl.
    destruct (all_public docs) as [ps|]; [|done]. simpl.
    intros [= <-]. constructor; auto.
Qed.

Lemma all_public_length docs pubs :
  all_public docs = Some pubs → length pubs = length docs.
Proof. intros H. symmetry. by eapply Forall2_length, all_public_Forall2. Qed.

(** What the list handler returns, when it returns: the public forms of
    the first [limit] matching documents. *)
Lemma list_applications_Ok db status q limit pubs :
  list_applications db status q limit = Ok pubs →
  ∃ s found,
    db = Some s ∧
    find (list_filter status q) (jobapplication s) = Some found ∧
    all_public (take (Z.to_nat (default default_limit limit)) found) = Some pubs.
Proof.
  unfold list_applications, get_documents. destruct db as [s|]; [|done].
  destruct (find _ _) as [found|] eqn:Hf; [|done].
  destruct (all_public _) as [ps|] eqn:Hp; [|done]. simpl.
  intros [= <-]. by exists s, found.
Qed.

Lemma GET_applications_Documents db status q limit c pubs :
  GET_applications db status q limit = Response c (Documents pubs) →
  list_applications db status q limit = Ok pubs.
Proof.
  unfold GET_applications.
  destruct (list_applications _ _ _ _) as [l|[]|]; simpl; congruence.
Qed.

(** ** Further lemmas on validation and on [model_dump] *)

Lemma required_Some {A} (i : field_input A) a :
  required i = Some a → i = Given a.
Proof. destruct i; simpl; congruence. Qed.

Lemma ge_0_negative (i : field_input Q) x r :
  i = Given x → (x < 0)%Q → optional i ≫= ge_0 ≠ Some r.
Proof.
  intros -> Hx. simpl. destruct (Qle_bool 0 x) eqn:E; [|done].
  apply Qle_bool_iff in E. by apply Qlt_not_le in Hx.
Qed.

Lemma rejected_validate_create b : rejected b → validate_create b = None.
Proof.
  intros Hr. destruct (validate_create b) as [m|] eqn:Hv; [|done]. exfalso.
  apply validate_create_Some in Hv
    as (Hc & Hp & _ & Had & Hfd & Hmin & Hmax & _ & _).
  destruct Hr as [H|[H|[H|[H|[H|[H|[(x & H & Hx)|(x & H & Hx)]]]]]]].
  - by apply required_Some, H in Hc.
  - by apply required_Some, H in Hp.
  - by rewrite H in Had.
  - by rewrite H in Hfd.
  - by rewrite H in Hmin.
  - by rewrite H in Hmax.
  - by eapply ge_0_negative.
  - by eapply ge_0_negative.
Qed.







Lemma not_array_lookup (d : document) k :
  match d !! k with Some (VList _) => false | _ => true end = true →
  not_array (d !! k).
Proof. intros H l Hl. by rewrite Hl in H. Qed.

Lemma contains_ci_false q s :
  search true (Lit <$> chars q) (chars s) = false → ¬ contains_ci q s.
Proof. intros H Hc. apply search_contains_ci in Hc. congruence. Qed.

(** ** The store stays in order *)

Lemma doc_oid_union (upd d : document) :
  upd !! "_id" = None → doc_oid (upd ∪ d) = doc_oid d.
Proof. intros H. unfold doc_oid. by rewrite lookup_union_r. Qed.

Lemma set_first_ids oid upd coll :
  upd !! "_id" = None →
  doc_oid <$> (set_first oid upd coll).2 = doc_oid <$> coll.
Proof.
  intros Hupd. induction coll as [|d coll IH]; simpl; [done|].
  destruct (has_id oid d); simpl.
  - by rewrite doc_oid_union.
  - destruct (set_first oid upd coll) as [n rest]. cbn [snd] in *.
    rewrite !fmap_cons. by f_equal.
Qed.

Lemma delete_one_sublist oid coll : sublist (delete_one oid coll).2 coll.
Proof.
  induction coll as [|d coll IH]; simpl; [done|].
  destruct (has_id oid d); simpl.
  - by constructor.
  - destruct (delete_one oid coll) as [n rest]. simpl in *. by constructor.
Qed.

Lemma identified_fmap coll coll' :
  doc_oid <$> coll' = doc_oid <$> coll → identified coll → identified coll'.
Proof.
  unfold identified. rewrite <- !(Forall_fmap doc_oid is_Some).
  by intros ->.
Qed.

Lemma omap_fmap_id {A B} (f : A → option B) (l : list A) :
  omap f l = omap id (f <$> l).
Proof.
  induction l as [|x l IH]; [done|]. cbn [omap list_omap fmap list_fmap id].
  destruct (f x); by f_equal.
Qed.

Lemma unique_ids_fmap coll coll' :
  doc_oid <$> coll' = doc_oid <$> coll → unique_ids coll → unique_ids coll'.
Proof.
  unfold unique_ids. rewrite (omap_fmap_id _ coll), (omap_fmap_id _ coll').
  by intros ->.
Qed.

Lemma omap_sublist {A B} (f : A → option B) (l k : list A) :
  sublist l k → sublist (omap f l) (omap f k).
Proof.
  induction 1 as [|x l k _ IH|x l k _ IH]; simpl; [done|..];
    destruct (f x); simpl; try done; by constructor.
Qed.

(** The handlers keep the store in order: every document identified, no
    identifier twice. *)
Lemma store_ok_preserved db :
  store_ok db →
  (∀ fresh payload, store_ok (create_application db fresh payload).2) ∧
  (∀ now app_id p, store_ok (update_application db now app_id p).2) ∧
  (∀ app_id, store_ok (delete_application db app_id).2).
Proof.
  intros Hok. split; [|split].
  - intros fresh payload. unfold create_application, insert_and_fetch,
      create_document, insert_one.
    destruct db as [s|]; [|done]. destruct Hok as [Hi Hu].
    destruct (bson_items _) as [?|stored]; [done|].
    destruct (existsb _ _) eqn:Hf; [done|]. cbn [jobapplication].
    assert (store_ok (Some (Database
              (jobapplication s ++ [<["_id" := VOid fresh]> (list_to_map stored)]))))
      as Hnew.
    { assert (doc_oid (<["_id" := VOid fresh]> (list_to_map stored : document))
              = Some fresh) as Hd.
      { unfold doc_oid. by rewrite lookup_insert_eq. }
      split; cbn [jobapplication].
      - apply Forall_app. split; [done|]. apply Forall_singleton. by rewrite Hd.
      - unfold unique_ids. rewrite omap_app. cbn [omap list_omap].
        rewrite Hd. apply NoDup_app. split; [done|].
        split; [|apply NoDup_singleton].
        intros o Ho Ho'. apply list_elem_of_singleton in Ho' as ->.
        apply list_elem_of_omap in Ho as (d & Hin & Hd').
        apply doc_oid_has_id in Hd'.
        apply existsb_has_id_false in Hf. rewrite Forall_forall in Hf.
        specialize (Hf d Hin). congruence. }
    destruct (ObjectId_of _); [|done]. by destruct (find_one _ _).
  - intros now app_id p. unfold update_application.
    destruct db as [s|]; [|done]. destruct Hok as [Hi Hu].
    unfold set_and_fetch. destruct (dict_is_empty _); [done|].
    destruct (ObjectId_of app_id) as [oid|];
      [|unfold raise_InvalidId; by destruct (is_ascii app_id)].
    rewrite update_one_update_dict.
    pose proof (set_first_ids oid _ (jobapplication s)
                  (update_dict_no_id p (to_milliseconds now))) as Hids.
    destruct (set_first _ _ _) as [n coll]. simpl in Hids.
    assert (store_ok (Some (Database coll))) as Hnew.
    { split; cbn [jobapplication];
        [by eapply identified_fmap|by eapply unique_ids_fmap]. }
    destruct (n =? 0)%nat; [done|]. by destruct (find_one _ _).
  - intros app_id. unfold delete_application.
    destruct db as [s|]; [|done]. destruct Hok as [Hi Hu].
    destruct (ObjectId_of app_id) as [oid|];
      [|unfold raise_InvalidId; by destruct (is_ascii app_id)].
    pose proof (delete_one_sublist oid (jobapplication s)) as Hsub.
    destruct (delete_one _ _) as [n coll]. simpl in Hsub.
    assert (store_ok (Some (Database coll))) as Hnew.
    { split; cbn [jobapplication].
      - unfold identified in *. rewrite Forall_forall in *.
        intros d Hd. apply Hi. by eapply elem_of_sublist.
      - unfold unique_ids. eapply sublist_NoDup; [exact Hu|].
        by apply omap_sublist. }
    by destruct (n =? 0)%nat.
Qed.

(** * The claims *)

(** ** C1 *)

(** C1, as amended. An update applies exactly the fields the body gives
    with a value other than null: the update dict maps [k] to [v] exactly
    when the body gives the value [v] under [k]; a key that is absent and
    a key sent as null are treated alike, neither reaches the update dict,
    and after a successful update the stored document has the given values
    and keeps every other field but [updated_at]. *)
Theorem update_applies_given_fields b p :
  validate_update b = Some p →
  (∀ k v, model_dump_exclude_none p !! k = Some v
          ↔ (k, Given v) ∈ body_fields b) ∧
  (∀ db now app_id pub db',
     update_application db now app_id p = (Ok pub, db') →
     ∃ s pre d d' post,
       db = Some s ∧ jobapplication s = pre ++ d :: post ∧
       db' = Some (Database (pre ++ d' :: post)) ∧
       (∀ k v, (k, Given v) ∈ body_fields b → d' !! k = Some v) ∧
       (∀ k, k ≠ "updated_at" → (∀ v, (k, Given v) ∉ body_fields b) →
             d' !! k = d !! k)).
Proof.
  intros Hb.
  assert (∀ k v, model_dump_exclude_none p !! k = Some v
                 ↔ (k, Given v) ∈ body_fields b) as Hdict.
  { intros k v.
    rewrite model_dump_exclude_none_lookup, (validate_update_fields _ _ Hb).
    rewrite list_elem_of_fmap. split.
    - intros ([k' i] & Heq & Hin). simpl in Heq. injection Heq as -> Hi.
      destruct i; simpl in Hi; try discriminate. by injection Hi as ->.
    - intros Hin. by exists (k, Given v). }
  split; [exact Hdict|].
  intros db now app_id pub db' Hok.
  apply update_application_Ok in Hok
    as (s & oid & pre & d & post & -> & _ & _ & Hs & _ & _ & _ & ->).
  eexists s, pre, d, _, post. repeat split; [done|..].
  - intros k v Hin. apply Hdict in Hin as Hk.
    rewrite updated_document_lookup, Hk. case_decide as Hu; [|done].
    subst k. by rewrite update_dict_no_updated_at in Hk.
  - intros k Hu Hnot. rewrite updated_document_lookup, decide_False by done.
    destruct (model_dump_exclude_none p !! k) as [v|] eqn:Hk; [|done].
    apply Hdict in Hk. by destruct (Hnot v).
Qed.

(** C1 at work: the body [{"company": "Initech", "notes": null}]. *)
Lemma update_applies_given_fields_witness :
  validate_update company_null_notes_body = Some company_null_notes ∧
  (model_dump_exclude_none company_null_notes !! "company"
   = Some (VStr "Initech")
   ↔ ("company", Given (VStr "Initech")) ∈ body_fields company_null_notes_body) ∧
  (∀ v, model_dump_exclude_none company_null_notes !! "notes" = Some v
        ↔ ("notes", Given v) ∈ body_fields company_null_notes_body).
Proof.
  assert (validate_update company_null_notes_body = Some company_null_notes)
    as H by reflexivity.
  split; [exact H|]. split.
  - exact (proj1 (update_applies_given_fields _ _ H) "company" (VStr "Initech")).
  - exact (proj1 (update_applies_given_fields _ _ H) "notes").
Defined.

(** C1, counterexample. A body that sends [notes] as null and a body
    without [notes] are told apart by validation but not by the update:
    both leave the stored notes as they were. *)
Lemma update_null_not_distinguished :
  (model_fields_set <$> validate_update company_null_notes_body)
  ≠ (model_fields_set <$> validate_update company_body) ∧
  PATCH_application db1 t0 id1 company_null_notes_body
  = PATCH_application db1 t0 id1 company_body ∧
  status_of (PATCH_application db1 t0 id1 company_null_notes_body).1 = Some 200%Z ∧
  only_document_field (PATCH_application db1 t0 id1 company_null_notes_body).2
    "notes" = Some (VStr "old") ∧
  only_document_field (PATCH_application db1 t0 id1 company_null_notes_body).2
    "company" = Some (VStr "Initech").
Proof.
  split; [by vm_compute|]. repeat split; reflexivity.
Qed.

(** ** C2 *)

(** C2, as amended. With the store configured, an update whose payload
    has no field set fails with status 400, whatever the identifier, and
    leaves the store as it was; with no store configured it fails with
    status 500. *)
Theorem update_without_fields_rejected now app_id b p :
  validate_update b = Some p → model_dump_exclude_none p = ∅ →
  (∀ s, PATCH_application (Some s) now app_id b
        = (ErrorResponse 400 "No fields to update", Some s)) ∧
  PATCH_application None now app_id b
  = (ErrorResponse 500 "Database not configured", None).
Proof.
  intros Hb He. unfold PATCH_application, update_application. rewrite Hb.
  split; [|done]. intros s. by rewrite (set_and_fetch_empty _ _ _ _ He).
Qed.

(** C2 at work: the empty body and a malformed identifier. *)
Lemma update_without_fields_rejected_witness :
  validate_update empty_body = Some no_fields ∧
  model_dump_exclude_none no_fields = ∅ ∧
  (∀ s, PATCH_application (Some s) t0 "not an identifier" empty_body
        = (ErrorResponse 400 "No fields to update", Some s)) ∧
  PATCH_application None t0 "not an identifier" empty_body
  = (ErrorResponse 500 "Database not configured", None).
Proof.
  assert (validate_update empty_body = Some no_fields) as H1 by reflexivity.
  assert (model_dump_exclude_none no_fields = ∅) as H2 by reflexivity.
  split; [exact H1|]. split; [exact H2|].
  exact (update_without_fields_rejected t0 "not an identifier" empty_body
           no_fields H1 H2).
Defined.

(** C2, counterexample. With no store configured, an update with no field
    set fails with status 500, not 400. *)
Lemma update_without_fields_unconfigured :
  PATCH_application None t0 id1 empty_body
  = (ErrorResponse 500 "Database not configured", None).
Proof. reflexivity. Qed.

(** ** C3 *)

(** C3, as amended. For a non-empty query text [q] without
    regular-expression metacharacters, and a stored document whose status,
    company, position and notes are texts (or null, or missing), the filter
    of the list operation holds of the document exactly when [q] occurs,
    case-insensitively, in its company, its position, its notes or one of
    its tags, and, when a non-empty status filter is supplied as well, its
    status is exactly that text. *)
Theorem list_filter_matches status q d :
  plain q = true → q ≠ "" →
  not_array (d !! "status") → not_array (d !! "company") →
  not_array (d !! "position") → not_array (d !! "notes") →
  is_Some (filter_matches (list_filter status (Some q)) d) ∧
  (filter_matches (list_filter status (Some q)) d = Some true
   ↔ status_holds status d ∧ query_holds q d).
Proof.
  intros Hq Hne Hs Hc Hp Hn.
  destruct (any_matches_query q d Hq Hc Hp Hn) as (b & Hb & Hiff).
  unfold list_filter, status_holds. rewrite (supplied_Some q Hne).
  destruct (supplied status) as [st|]; cbn [app filter_matches clause_matches];
    rewrite Hb; cbn [mbind option_bind].
  - split; [eauto|]. rewrite andb_true_r.
    split.
    + intros [= H]. apply andb_true_iff in H as [H1 H2].
      split; [by apply equals_text_scalar|by apply Hiff].
    + intros [H1 H2]. f_equal. apply andb_true_iff.
      split; [by apply equals_text_scalar|by apply Hiff].
  - split; [eauto|]. rewrite andb_true_r. split.
    + intros [= H]. split; [done|by apply Hiff].
    + intros [_ H]. f_equal. by apply Hiff.
Qed.

(** C3 at work: status ["applied"] and query ["acme"] on [acme_doc]. *)
Lemma list_filter_matches_witness :
  plain "acme" = true ∧ "acme" ≠ "" ∧
  not_array (acme_doc !! "status") ∧ not_array (acme_doc !! "company") ∧
  not_array (acme_doc !! "position") ∧ not_array (acme_doc !! "notes") ∧
  is_Some (filter_matches (list_filter (Some "applied") (Some "acme")) acme_doc) ∧
  (filter_matches (list_filter (Some "applied") (Some "acme")) acme_doc
   = Some true
   ↔ status_holds (Some "applied") acme_doc ∧ query_holds "acme" acme_doc).
Proof.
  assert (plain "acme" = true) as H1 by reflexivity.
  assert ("acme" ≠ "") as H2 by discriminate.
  assert (not_array (acme_doc !! "status")) as H3
    by (by apply not_array_lookup).
  assert (not_array (acme_doc !! "company")) as H4
    by (by apply not_array_lookup).
  assert (not_array (acme_doc !! "position")) as H5
    by (by apply not_array_lookup).
  assert (not_array (acme_doc !! "notes")) as H6
    by (by apply not_array_lookup).
  repeat (split; [assumption|]).
  exact (list_filter_matches (Some "applied") "acme" acme_doc H1 H2 H3 H4 H5 H6).
Defined.

(** C3, counterexample. The query text ["a.c"] is handed to the store as a
    regular expression: the document whose company is ["abc"] matches and
    is listed, although ["a.c"] occurs in none of its company, position,
    notes and tags. *)
Lemma list_filter_wildcard :
  filter_matches (list_filter None (Some "a.c")) abc_doc = Some true ∧
  GET_applications (Some (Database [abc_doc])) None (Some "a.c") None
  = Response 200
      (Documents [iso_value <$> <["id" := VStr id1]> (delete "_id" abc_doc)]) ∧
  ¬ query_holds "a.c" abc_doc.
Proof.
  split; [reflexivity|]. split; [reflexivity|].
  unfold query_holds, text_field, some_tag.
  intros [(s & Hs & Hc)|[(s & Hs & Hc)|[(s & Hs & Hc)|(l & s & Hl & Hin & Hc)]]].
  - vm_compute in Hs. injection Hs as <-. revert Hc. by apply contains_ci_false.
  - vm_compute in Hs. injection Hs as <-. revert Hc. by apply contains_ci_false.
  - vm_compute in Hs. discriminate.
  - vm_compute in Hl. injection Hl as <-.
    apply list_elem_of_singleton in Hin. injection Hin as ->.
    revert Hc. by apply contains_ci_false.
Qed.

(** ** C4 *)

(** C4. A successful update replaces one stored document [d] by [d'],
    in place, and answers with the public form of [d']; [d'] has the
    current time under [updated_at], whatever the payload, as the store
    keeps it: to the millisecond, the microseconds below it cut off. When
    the payload has one field set, [k] with value [v], [d'] has [v] under
    [k] and every other field of [d'] is the field of [d]. The other
    documents are untouched. *)
Theorem update_one_field_frame db now app_id p pub db' :
  update_application db now app_id p = (Ok pub, db') →
  ∃ s pre d d' post stamp,
    db = Some s ∧ jobapplication s = pre ++ d :: post ∧
    db' = Some (Database (pre ++ d' :: post)) ∧
    to_public d' = Some pub ∧
    stamp = to_milliseconds now ∧
    (year stamp, month stamp, day stamp, hour stamp, minute stamp, second stamp)
    = (year now, month now, day now, hour now, minute now, second now) ∧
    (microsecond stamp ≤ microsecond now < microsecond stamp + 1000)%nat ∧
    d' !! "updated_at" = Some (VDatetime stamp) ∧
    pub !! "updated_at" = Some (VStr (isoformat stamp)) ∧
    ∀ k v, model_dump_exclude_none p = {[ k := v ]} →
           d' !! k = Some v ∧
           ∀ k', k' ≠ k → k' ≠ "updated_at" → d' !! k' = d !! k'.
Proof.
  intros Hok.
  apply update_application_Ok in Hok
    as (s & oid & pre & d & post & -> & _ & _ & Hs & _ & Hd & Hpub & ->).
  eexists s, pre, d, _, post, (to_milliseconds now).
  assert ((<["updated_at" := VDatetime (to_milliseconds now)]>
             (model_dump_exclude_none p) ∪ d)
            !! "updated_at" = Some (VDatetime (to_milliseconds now))) as Hnow
    by (by rewrite updated_document_lookup, decide_True).
  split; [done|]. split; [done|]. split; [done|]. split; [exact Hpub|].
  split; [done|]. split; [done|]. split.
  { cbn [to_milliseconds microsecond].
    pose proof (Nat.div_mod_eq (microsecond now) 1000) as Hdiv.
    pose proof (Nat.mod_upper_bound (microsecond now) 1000). lia. }
  split; [exact Hnow|]. split.
  - assert (has_id oid
              (<["updated_at" := VDatetime (to_milliseconds now)]>
                 (model_dump_exclude_none p) ∪ d)
            = true) as Hid
      by (by rewrite has_id_union by apply update_dict_no_id).
    apply has_id_true in Hid.
    destruct (to_public_form _ _ _ Hid Hpub) as (_ & _ & _ & ->); [|done..].
    by rewrite Hnow.
  - intros k v H. split.
    + rewrite updated_document_lookup, H, lookup_singleton_eq.
      case_decide as Hk; [|done]. subst k.
      pose proof (update_dict_no_updated_at p) as Hn.
      by rewrite H, lookup_singleton_eq in Hn.
    + intros k' H1 H2.
      by rewrite updated_document_lookup, decide_False, H, lookup_singleton_ne.
Qed.

(** C4 at work: [{"company": "Initech"}] applied to the stored
    [acme_doc] when the clock shows 123456 microseconds; the document has
    123000 of them. *)
Lemma update_one_field_frame_witness :
  update_application db1 t1 id1 company_update
  = (Ok acme_updated_t1_public, Some (Database [acme_updated_t1])) ∧
  acme_updated_t1 !! "updated_at" = Some (VDatetime t1_stored) ∧
  ∃ s pre d d' post stamp,
    db1 = Some s ∧ jobapplication s = pre ++ d :: post ∧
    Some (Database [acme_updated_t1]) = Some (Database (pre ++ d' :: post)) ∧
    to_public d' = Some acme_updated_t1_public ∧
    stamp = to_milliseconds t1 ∧
    (year stamp, month stamp, day stamp, hour stamp, minute stamp, second stamp)
    = (year t1, month t1, day t1, hour t1, minute t1, second t1) ∧
    (microsecond stamp ≤ microsecond t1 < microsecond stamp + 1000)%nat ∧
    d' !! "updated_at" = Some (VDatetime stamp) ∧
    acme_updated_t1_public !! "updated_at" = Some (VStr (isoformat stamp)) ∧
    ∀ k v, model_dump_exclude_none company_update = {[ k := v ]} →
           d' !! k = Some v ∧
           ∀ k', k' ≠ k → k' ≠ "updated_at" → d' !! k' = d !! k'.
Proof.
  assert (update_application db1 t1 id1 company_update
          = (Ok acme_updated_t1_public, Some (Database [acme_updated_t1]))) as H
    by reflexivity.
  split; [exact H|]. split; [reflexivity|].
  exact (update_one_field_frame db1 t1 id1 company_update
           acme_updated_t1_public _ H).
Defined.

(** ** C5 *)

(** C5, as amended. Creation succeeds only when the body gives company
    and position as texts (the empty text included); a body without a
    required field, or with a date or a number that does not parse, or
    with a negative salary bound, is refused by validation before the
    handler runs, and the store is left as it was. *)
Theorem create_validation db fresh b :
  (∀ c content db',
     POST_applications db fresh b = (Response c content, db') →
     ∃ co po, b_company b = Given co ∧ b_position b = Given po) ∧
  (rejected b → POST_applications db fresh b = (ValidationError, db)).
Proof.
  split.
  - intros c content db'. unfold POST_applications.
    destruct (validate_create b) as [m|] eqn:Hv; [|done]. intros _.
    apply validate_create_Some in Hv as (Hc & Hp & _).
    apply required_Some in Hc, Hp. eauto.
  - intros Hr. unfold POST_applications.
    by rewrite (rejected_validate_create _ Hr).
Qed.

(** C5 at work: a body without position. *)
Lemma create_validation_witness :
  rejected no_position_body ∧
  POST_applications db1 oid1 no_position_body = (ValidationError, db1).
Proof.
  assert (rejected no_position_body) as H by (right; left; discriminate).
  split; [exact H|].
  exact (proj2 (create_validation db1 oid1 no_position_body) H).
Defined.

(** C5, counterexample. A body whose company and position are the empty
    text is accepted and created. *)
Lemma create_accepts_empty_text :
  status_of (POST_applications (Some (Database [])) oid1 blank_body).1
  = Some 201%Z ∧
  returned_field (POST_applications (Some (Database [])) oid1 blank_body).1
    "company" = Some (VStr "") ∧
  returned_field (POST_applications (Some (Database [])) oid1 blank_body).1
    "position" = Some (VStr "").
Proof. repeat split; reflexivity. Qed.

(** ** C6 *)




(** ** C7 *)



(** ** C8 *)




(** ** C9 *)

(** C9. The list operation fails with status 500 when no store is
    configured. With a store, when no stored document matches the filter
    the answer is 200 with the empty sequence; and a request without a
    limit is the request with limit 100: it returns at most 100
    documents. *)
Theorem list_outcomes status q limit :
  GET_applications None status q limit
  = ErrorResponse 500 "Database not configured" ∧
  (∀ s, Forall (λ d, filter_matches (list_filter status q) d = Some false)
               (jobapplication s) →
        GET_applications (Some s) status q limit = Response 200 (Documents [])) ∧
  (∀ db, GET_applications db status q None
         = GET_applications db status q (Some 100%Z)) ∧
  (∀ db c pubs, GET_applications db status q None = Response c (Documents pubs) →
                (length pubs ≤ 100)%nat).
Proof.
  split; [done|]. split; [|split; [done|]].
  - intros s Hall. unfold GET_applications, list_applications, get_documents.
    rewrite (find_no_match _ _ Hall). by rewrite take_nil.
  - intros db c pubs H. apply GET_applications_Documents in H.
    apply list_applications_Ok in H as (s & found & _ & _ & H).
    apply all_public_length in H. rewrite H, length_take.
    change (Z.to_nat (default default_limit None)) with 100%nat. lia.
Qed.

(** C9 at work: no stored document has status ["offer"]. *)
Lemma list_outcomes_witness :
  Forall (λ d, filter_matches (list_filter (Some "offer") (Some "acme")) d
               = Some false) [acme_doc] ∧
  GET_applications db1 (Some "offer") (Some "acme") None
  = Response 200 (Documents []).
Proof.
  assert (Forall (λ d, filter_matches (list_filter (Some "offer") (Some "acme")) d
                       = Some false) [acme_doc]) as H.
  { apply Forall_cons. split; [reflexivity|apply Forall_nil_2]. }
  split; [exact H|].
  exact (proj1 (proj2 (list_outcomes (Some "offer") (Some "acme") None))
           (Database [acme_doc]) H).
Defined.

(** ** C10 *)

(** C10. Every exception raised while inserting and fetching is answered
    by the create operation with status 400 and the text of the exception
    as detail; so is the store not being configured, for which list,
    update and delete answer 500. Whatever the store and the body, the
    create route answers with a validation error, with 201 and a document,
    or with 400: never with 500. *)
Theorem create_never_500 db fresh :
  (∀ payload e db',
     insert_and_fetch db fresh payload = (Raise e, db') →
     create_application db fresh payload
     = (Raise (HTTPException 400 (str_exn e)), db')) ∧
  (∀ payload,
     create_application None fresh payload
     = (Raise (HTTPException 400 not_available), None)) ∧
  (∀ status q limit now app_id p,
     list_applications None status q limit
     = Raise (HTTPException 500 "Database not configured") ∧
     update_application None now app_id p
     = (Raise (HTTPException 500 "Database not configured"), None) ∧
     delete_application None app_id
     = (Raise (HTTPException 500 "Database not configured"), None)) ∧
  (∀ b, (POST_applications db fresh b).1 = ValidationError
        ∨ (∃ pub, (POST_applications db fresh b).1 = Response 201 (Document pub))
        ∨ (∃ detail, (POST_applications db fresh b).1 = ErrorResponse 400 detail)).
Proof.
  split; [|split; [|split]].
  - intros payload e db' H. unfold create_application. by rewrite H.
  - done.
  - done.
  - intros b. unfold POST_applications.
    destruct (validate_create b) as [payload|]; [|by left]. right.
    unfold create_application.
    destruct (insert_and_fetch_cases db fresh payload)
      as [(e & db' & ->)|(s' & doc & pub & o & -> & _)].
    + right. simpl. eauto.
    + left. simpl. eauto.
Qed.

(** C10 at work: the store refuses an identifier it already holds. *)
Lemma create_never_500_witness :
  insert_and_fetch db1 oid1 acme
  = (Raise (Exception "E11000 duplicate key error"), db1) ∧
  create_application db1 oid1 acme
  = (Raise (HTTPException 400 "E11000 duplicate key error"), db1).
Proof.
  assert (insert_and_fetch db1 oid1 acme
          = (Raise (Exception "E11000 duplicate key error"), db1)) as H
    by reflexivity.
  split; [exact H|].
  exact (proj1 (create_never_500 db1 oid1) acme _ db1 H).
Defined.

(** * Further properties *)

(** ** [to_public] *)

Lemma iso_value_idemp v : iso_value (iso_value v) = iso_value v.
Proof. by destruct v. Qed.

(** X1. A document without [_id], or whose [_id] is falsy, gets [None]
    under [id] and keeps every other key, a falsy [_id] included; its
    timestamps become ISO text. *)
Theorem to_public_without_identifier (d : document) :
  (d !! "_id" = None ∨ ∃ v, d !! "_id" = Some v ∧ truthy v = false) →
  ∃ pub, to_public d = Some pub ∧
         pub !! "id" = Some VNull ∧
         ∀ k, k ≠ "id" → pub !! k = iso_value <$> d !! k.
Proof.
  intros H.
  assert (move_id d = Some (<["id" := VNull]> d)) as Hm.
  { unfold move_id. destruct H as [->|(v & -> & ->)]; done. }
  unfold to_public. rewrite Hm. eexists. split; [done|]. split.
  - by rewrite lookup_fmap, lookup_insert_eq.
  - intros k Hk. by rewrite lookup_fmap, lookup_insert_ne.
Qed.

(** X1 at work: [loose_doc], which has no [_id]. *)
Lemma to_public_without_identifier_witness :
  (loose_doc !! "_id" = None
   ∨ ∃ v, loose_doc !! "_id" = Some v ∧ truthy v = false) ∧
  ∃ pub, to_public loose_doc = Some pub ∧
         pub !! "id" = Some VNull ∧
         ∀ k, k ≠ "id" → pub !! k = iso_value <$> loose_doc !! k.
Proof.
  assert (loose_doc !! "_id" = None
          ∨ ∃ v, loose_doc !! "_id" = Some v ∧ truthy v = false) as H
    by (left; reflexivity).
  split; [exact H|]. exact (to_public_without_identifier loose_doc H).
Defined.

(** X2. [to_public] is not idempotent: applied to the public form of a
    stored document it puts [None] under [id], so the identifier is lost;
    every other field stays as it is. *)
Theorem to_public_twice (d pub : document) o :
  d !! "_id" = Some (VOid o) → to_public d = Some pub →
  ∃ pub2, to_public pub = Some pub2 ∧
          pub !! "id" = Some (VStr (str_oid o)) ∧
          pub2 !! "id" = Some VNull ∧
          ∀ k, k ≠ "id" → pub2 !! k = pub !! k.
Proof.
  intros Hid Hp. destruct (to_public_form _ _ _ Hid Hp) as (Hno & Ho & _ & _).
  destruct Ho as (o' & Ho' & Hpid). rewrite Hid in Ho'. injection Ho' as <-.
  destruct (to_public_without_identifier pub (or_introl Hno))
    as (pub2 & Hp2 & Hid2 & Hk).
  exists pub2. repeat split; [done..|].
  intros k Hne. rewrite (Hk k Hne).
  rewrite (to_public_oid _ _ Hid) in Hp. injection Hp as <-.
  rewrite lookup_fmap. destruct (_ !! k); simpl; [|done].
  by rewrite iso_value_idemp.
Qed.

(** X2 at work: [acme_doc] made public twice. *)
Lemma to_public_twice_witness :
  acme_doc !! "_id" = Some (VOid oid1) ∧ to_public acme_doc = Some acme_public ∧
  ∃ pub2, to_public acme_public = Some pub2 ∧
          acme_public !! "id" = Some (VStr (str_oid oid1)) ∧
          pub2 !! "id" = Some VNull ∧
          ∀ k, k ≠ "id" → pub2 !! k = acme_public !! k.
Proof.
  assert (acme_doc !! "_id" = Some (VOid oid1)) as H1 by reflexivity.
  assert (to_public acme_doc = Some acme_public) as H2 by reflexivity.
  split; [exact H1|]. split; [exact H2|].
  exact (to_public_twice acme_doc acme_public oid1 H1 H2).
Defined.

(** X3. The public form of a stored document has the keys of the document
    with [_id] replaced by [id], an [id] field of the document being
    overwritten; the conversion of timestamps is shallow: an array is
    returned as stored, whatever it holds. *)
Theorem to_public_keys (d pub : document) o :
  d !! "_id" = Some (VOid o) → to_public d = Some pub →
  dom pub = {[ "id" ]} ∪ (dom d ∖ {[ "_id" ]}) ∧
  ∀ k l, k ≠ "_id" → k ≠ "id" → d !! k = Some (VList l) →
         pub !! k = Some (VList l).
Proof.
  intros Hid Hp. rewrite (to_public_oid _ _ Hid) in Hp. injection Hp as <-.
  split.
  - by rewrite dom_fmap_L, dom_insert_L, dom_delete_L.
  - intros k l H1 H2 Hk.
    by rewrite lookup_fmap, lookup_insert_ne, lookup_delete_ne, Hk.
Qed.

(** X3 at work: the keys of [acme_public]. *)
Lemma to_public_keys_witness :
  acme_doc !! "_id" = Some (VOid oid1) ∧ to_public acme_doc = Some acme_public ∧
  dom acme_public = {[ "id" ]} ∪ (dom acme_doc ∖ {[ "_id" ]}) ∧
  ∀ k l, k ≠ "_id" → k ≠ "id" → acme_doc !! k = Some (VList l) →
         acme_public !! k = Some (VList l).
Proof.
  assert (acme_doc !! "_id" = Some (VOid oid1)) as H1 by reflexivity.
  assert (to_public acme_doc = Some acme_public) as H2 by reflexivity.
  split; [exact H1|]. split; [exact H2|].
  exact (to_public_keys acme_doc acme_public oid1 H1 H2).
Defined.

(** ** [list_applications] *)

Lemma find_matches f coll docs :
  find f coll = Some docs → Forall (λ d, filter_matches f d = Some true) docs.
Proof.
  revert docs. induction coll as [|d coll IH]; simpl; intros docs.
  - intros [= <-]. constructor.
  - destruct (filter_matches f d) as [b|] eqn:Hd; [|done].
    destruct (find f coll) as [ds|]; [|done].
    intros [= <-]. destruct b; [constructor|]; auto.
Qed.

Lemma find_all coll : find [] coll = Some coll.
Proof. induction coll as [|d coll IH]; simpl; [done|]. by rewrite IH. Qed.

Lemma all_public_identified docs :
  identified docs → ∃ pubs, all_public docs = Some pubs.
Proof.
  induction 1 as [|d docs [o Ho] _ [pubs IH]]; simpl; [eauto|].
  unfold doc_oid in Ho. destruct (d !! "_id") as [[]|] eqn:Hid; try done.
  rewrite (to_public_oid _ _ Hid). simpl. rewrite IH. simpl. eauto.
Qed.

(** X4. A status or a query that is the empty text counts as not
    supplied. With neither supplied, the list operation answers 200 with
    the public forms of the first [limit] stored documents, in store order
    ([get_documents] as modelled from the spec). *)
Theorem list_without_filters s status q limit :
  supplied status = None → supplied q = None →
  identified (jobapplication s) →
  ∃ pubs,
    GET_applications (Some s) status q limit = Response 200 (Documents pubs) ∧
    Forall2 (λ raw pub, to_public raw = Some pub)
            (take (Z.to_nat (default default_limit limit)) (jobapplication s))
            pubs.
Proof.
  intros Hs Hq Hid.
  destruct (all_public_identified
              (take (Z.to_nat (default default_limit limit)) (jobapplication s)))
    as [pubs Hp].
  { unfold identified in *. rewrite Forall_forall in *. intros d Hd.
    apply Hid. eapply elem_of_sublist; [exact Hd|apply sublist_take]. }
  exists pubs. split; [|by apply all_public_Forall2].
  unfold GET_applications, list_applications, get_documents, list_filter.
  rewrite Hs, Hq. cbn [app]. rewrite find_all, Hp. done.
Qed.

(** X4 at work: empty status and query, limit 5. *)
Lemma list_without_filters_witness :
  supplied (Some "") = None ∧ supplied (Some "") = None ∧
  identified (jobapplication (Database [acme_doc])) ∧
  ∃ pubs,
    GET_applications db1 (Some "") (Some "") (Some 5%Z)
    = Response 200 (Documents pubs) ∧
    Forall2 (λ raw pub, to_public raw = Some pub)
            (take (Z.to_nat (default default_limit (Some 5%Z)))
                  (jobapplication (Database [acme_doc])))
            pubs.
Proof.
  assert (identified (jobapplication (Database [acme_doc]))) as H.
  { apply Forall_singleton. by exists oid1. }
  split; [reflexivity|]. split; [reflexivity|]. split; [exact H|].
  exact (list_without_filters (Database [acme_doc]) (Some "") (Some "")
           (Some 5%Z) eq_refl eq_refl H).
Defined.

Lemma equals_text_is_or_holds t v :
  equals_text t v = true → is_or_holds t v.
Proof.
  unfold is_or_holds. destruct v as [[]|]; simpl; try done.
  - intros H. apply String.eqb_eq in H. left. by subst.
  - intros H. right. apply existsb_exists in H as (x & Hin & Hx).
    destruct x; try done. apply String.eqb_eq in Hx. subst.
    eexists. split; [done|]. by apply list_elem_of_In.
Qed.

(** X5. With a non-empty status filter, every document the list operation
    returns is the public form of a stored document whose status is
    exactly the filter text (or an array that holds it), whatever the
    query. *)
Theorem list_status_exact db st q limit c pubs :
  st ≠ "" →
  GET_applications db (Some st) q limit = Response c (Documents pubs) →
  ∃ s, db = Some s ∧
       Forall (λ pub, ∃ raw, raw ∈ jobapplication s ∧
                             to_public raw = Some pub ∧
                             is_or_holds st (raw !! "status")) pubs.
Proof.
  intros Hst H. apply GET_applications_Documents in H.
  apply list_applications_Ok in H as (s & found & -> & Hfind & Hpub).
  exists s. split; [done|].
  apply all_public_Forall2 in Hpub.
  eapply Forall2_Forall_r; [exact Hpub|].
  apply Forall_forall. intros raw Hraw pub Hp.
  apply elem_of_take in Hraw as (i & Hraw & _).
  apply list_elem_of_lookup_2 in Hraw.
  exists raw. split; [by eapply elem_of_sublist, find_sublist|].
  split; [done|].
  apply find_matches in Hfind. rewrite Forall_forall in Hfind.
  specialize (Hfind raw Hraw). unfold list_filter in Hfind.
  rewrite (supplied_Some st Hst) in Hfind. cbn [app filter_matches] in Hfind.
  apply bind_Some in Hfind as (b & Hb & Hrest).
  apply bind_Some in Hrest as (bs & _ & [= Hand]).
  apply andb_true_iff in Hand as [-> _]. simpl in Hb. injection Hb as Hb.
  by apply equals_text_is_or_holds.
Qed.

(** X5 at work: status ["applied"] with the query ["ACME"]. *)
Lemma list_status_exact_witness :
  "applied" ≠ "" ∧
  GET_applications db1 (Some "applied") (Some "ACME") None
  = Response 200 (Documents [acme_public]) ∧
  ∃ s, db1 = Some s ∧
       Forall (λ pub, ∃ raw, raw ∈ jobapplication s ∧
                             to_public raw = Some pub ∧
                             is_or_holds "applied" (raw !! "status"))
              [acme_public].
Proof.
  assert ("applied" ≠ "") as H1 by discriminate.
  assert (GET_applications db1 (Some "applied") (Some "ACME") None
          = Response 200 (Documents [acme_public])) as H2 by reflexivity.
  split; [exact H1|]. split; [exact H2|].
  exact (list_status_exact db1 "applied" (Some "ACME") None 200%Z
           [acme_public] H1 H2).
Defined.

Lemma filter_matches_app f g d :
  filter_matches (f ++ g) d = Some true →
  filter_matches f d = Some true.
Proof.
  induction f as [|c f IH]; simpl; [done|].
  intros H. apply bind_Some in H as (b & Hb & H).
  apply bind_Some in H as (bs & Hbs & [= Hand]).
  apply andb_true_iff in Hand as [-> ->]. rewrite Hb. simpl.
  by rewrite (IH Hbs).
Qed.

(** X6. A query only narrows a listing: a document that matches the
    filter built from a status and a query matches the filter built from
    the status alone. *)
Theorem list_query_narrows status q d :
  filter_matches (list_filter status q) d = Some true →
  filter_matches (list_filter status None) d = Some true.
Proof.
  unfold list_filter. intros H. apply filter_matches_app in H.
  cbn [supplied]. by rewrite app_nil_r.
Qed.

(** X6 at work: [acme_doc] under status and query, then status alone. *)
Lemma list_query_narrows_witness :
  filter_matches (list_filter (Some "applied") (Some "acme")) acme_doc
  = Some true ∧
  filter_matches (list_filter (Some "applied") None) acme_doc = Some true.
Proof.
  assert (filter_matches (list_filter (Some "applied") (Some "acme")) acme_doc
          = Some true) as H by reflexivity.
  split; [exact H|].
  exact (list_query_narrows (Some "applied") (Some "acme") acme_doc H).
Defined.

(** ** [update_application] *)


Lemma company_update_not_empty : model_dump_exclude_none company_update ≠ ∅.
Proof.
  intros H. assert (model_dump_exclude_none company_update !! "company"
                    = Some (VStr "Initech")) as Hc by reflexivity.
  by rewrite H in Hc.
Qed.




(** X9. Whatever its outcome, an update keeps the documents of the store
    in place under their identifiers: the sequence of identifiers, and so
    the number of documents, is the same before and after. *)
Theorem update_keeps_identifiers s now app_id p :
  ∃ s', (update_application (Some s) now app_id p).2 = Some s' ∧
        doc_oid <$> jobapplication s' = doc_oid <$> jobapplication s ∧
        length (jobapplication s') = length (jobapplication s).
Proof.
  assert (∃ s', (update_application (Some s) now app_id p).2 = Some s' ∧
                doc_oid <$> jobapplication s' = doc_oid <$> jobapplication s)
    as (s' & Hs' & Hids).
  { unfold update_application, set_and_fetch.
    destruct (dict_is_empty _); [by exists s|].
    destruct (ObjectId_of app_id) as [oid|];
      [|unfold raise_InvalidId; destruct (is_ascii app_id); by exists s].
    rewrite update_one_update_dict.
    pose proof (set_first_ids oid _ (jobapplication s)
                  (update_dict_no_id p (to_milliseconds now))) as Hids.
    destruct (set_first _ _ _) as [n coll]. cbn [snd] in Hids.
    exists (Database coll).
    destruct (n =? 0)%nat; [done|]. by destruct (find_one _ _). }
  exists s'. split; [done|]. split; [done|].
  by rewrite <- (length_fmap doc_oid), Hids, length_fmap.
Qed.

(** X10. An update cannot clear a field: in the document a successful
    update stores, every key of the old document is still there, and a
    field is null only if it was null before. *)
Theorem update_cannot_clear db now app_id p pub db' :
  update_application db now app_id p = (Ok pub, db') →
  ∃ s pre d d' post,
    db = Some s ∧ jobapplication s = pre ++ d :: post ∧
    db' = Some (Database (pre ++ d' :: post)) ∧
    (∀ k, is_Some (d !! k) → is_Some (d' !! k)) ∧
    (∀ k, d' !! k = Some VNull → d !! k = Some VNull).
Proof.
  intros Hok.
  apply update_application_Ok in Hok
    as (s & oid & pre & d & post & -> & _ & _ & Hs & _ & _ & _ & ->).
  eexists s, pre, d, _, post. repeat split; [done|..].
  - intros k [v Hv]. rewrite updated_document_lookup, Hv.
    case_decide; [done|]. by destruct (model_dump_exclude_none p !! k).
  - intros k. rewrite updated_document_lookup. case_decide; [done|].
    destruct (model_dump_exclude_none p !! k) as [v|] eqn:Hk; [|done].
    intros [= ->]. apply model_dump_exclude_none_lookup in Hk.
    unfold update_fields in Hk.
    repeat (apply elem_of_cons in Hk as [[= _ Hk]|Hk];
            [match type of Hk with _ = _ <$> ?o => by destruct o end|]).
    by apply not_elem_of_nil in Hk.
Qed.

(** X10 at work: [notes] sent as null stays ["old"]. *)
Lemma update_cannot_clear_witness :
  update_application db1 t0 id1 company_null_notes
  = (Ok acme_updated_public, Some (Database [acme_updated])) ∧
  ∃ s pre d d' post,
    db1 = Some s ∧ jobapplication s = pre ++ d :: post ∧
    Some (Database [acme_updated]) = Some (Database (pre ++ d' :: post)) ∧
    (∀ k, is_Some (d !! k) → is_Some (d' !! k)) ∧
    (∀ k, d' !! k = Some VNull → d !! k = Some VNull).
Proof.
  assert (update_application db1 t0 id1 company_null_notes
          = (Ok acme_updated_public, Some (Database [acme_updated]))) as H
    by reflexivity.
  split; [exact H|].
  exact (update_cannot_clear db1 t0 id1 company_null_notes
           acme_updated_public _ H).
Defined.

(** X11. A successful update repeated at the same clock value gives the
    same response and leaves the store as the first one left it. *)
Theorem update_idempotent db now app_id p pub db' :
  update_application db now app_id p = (Ok pub, db') →
  update_application db' now app_id p = (Ok pub, db').
Proof.
  intros Hok.
  apply update_application_Ok in Hok
    as (s & oid & pre & d & post & -> & He & Hid & Hs & Hpre & Hd & Hpub & ->).
  set (upd := <["updated_at" := VDatetime (to_milliseconds now)]>
                (model_dump_exclude_none p)) in *.
  assert (has_id oid (upd ∪ d) = true) as Hd'
    by (by rewrite has_id_union by apply update_dict_no_id).
  unfold update_application.
  rewrite (set_and_fetch_found (Database (pre ++ (upd ∪ d) :: post)) now app_id
             p oid pre (upd ∪ d) post He Hid eq_refl Hpre Hd').
  cbn zeta. fold upd.
  rewrite (assoc_L (∪)), (idemp_L (∪) upd). by rewrite Hpub.
Qed.

(** X11 at work: [company_update] applied twice at [t0]. *)
Lemma update_idempotent_witness :
  update_application db1 t0 id1 company_update
  = (Ok acme_updated_public, Some (Database [acme_updated])) ∧
  update_application (Some (Database [acme_updated])) t0 id1 company_update
  = (Ok acme_updated_public, Some (Database [acme_updated])).
Proof.
  assert (update_application db1 t0 id1 company_update
          = (Ok acme_updated_public, Some (Database [acme_updated]))) as H
    by reflexivity.
  split; [exact H|].
  exact (update_idempotent db1 t0 id1 company_update acme_updated_public _ H).
Defined.

(** ** [delete_application] *)

Lemma find_one_skip oid (pre post : list document) d :
  has_id oid d = false →
  find_one oid (pre ++ d :: post) = find_one oid (pre ++ post).
Proof.
  intros Hd. unfold find_one. induction pre as [|x pre IH]; simpl.
  - by rewrite Hd.
  - by rewrite IH.
Qed.

(** A successful delete found its document. *)
Lemma delete_application_Ok db app_id db' :
  delete_application db app_id = (Ok tt, db') →
  ∃ s oid pre d post,
    db = Some s ∧ ObjectId_of app_id = Some oid ∧
    jobapplication s = pre ++ d :: post ∧
    Forall (λ d, has_id oid d = false) pre ∧ has_id oid d = true ∧
    db' = Some (Database (pre ++ post)).
Proof.
  destruct db as [s|]; [|done].
  destruct (ObjectId_of app_id) as [oid|] eqn:Hid.
  2:{ unfold delete_application. rewrite Hid. unfold raise_InvalidId.
      by destruct (is_ascii app_id). }
  destruct (find_one_located oid (jobapplication s))
    as [Hall|pre d post Hs Hpre Hd].
  { by rewrite (delete_application_missing _ _ _ Hid Hall). }
  rewrite (delete_application_found _ _ _ _ _ _ Hid Hs Hpre Hd).
  intros [= <-]. by exists s, oid, pre, d, post.
Qed.

(** X12. A successful delete removes one document and nothing else: the
    store has one document fewer, and every other identifier finds the
    document it found before. *)
Theorem delete_removes_one db app_id db' :
  delete_application db app_id = (Ok tt, db') →
  ∃ s s' oid,
    db = Some s ∧ db' = Some s' ∧ ObjectId_of app_id = Some oid ∧
    S (length (jobapplication s')) = length (jobapplication s) ∧
    ∀ other, other ≠ oid →
             find_one other (jobapplication s')
             = find_one other (jobapplication s).
Proof.
  intros H. apply delete_application_Ok in H
    as (s & oid & pre & d & post & -> & Hid & Hs & _ & Hd & ->).
  exists s, (Database (pre ++ post)), oid. repeat split; [done|..].
  - rewrite Hs. cbn [jobapplication]. rewrite !length_app. simpl. lia.
  - intros other Hne. rewrite Hs. cbn [jobapplication].
    symmetry. apply find_one_skip.
    destruct (has_id other d) eqn:E; [|done].
    apply doc_oid_has_id in E, Hd. congruence.
Qed.

(** X12 at work: the only document deleted. *)
Lemma delete_removes_one_witness :
  delete_application db1 id1 = (Ok tt, Some (Database [])) ∧
  ∃ s s' oid,
    db1 = Some s ∧ Some (Database []) = Some s' ∧
    ObjectId_of id1 = Some oid ∧
    S (length (jobapplication s')) = length (jobapplication s) ∧
    ∀ other, other ≠ oid →
             find_one other (jobapplication s')
             = find_one other (jobapplication s).
Proof.
  assert (delete_application db1 id1 = (Ok tt, Some (Database []))) as H
    by reflexivity.
  split; [exact H|]. exact (delete_removes_one db1 id1 _ H).
Defined.



(** X14. Once a document is deleted from a store without duplicate
    identifiers, an update with the same identifier fails with status 404
    and changes nothing. *)
Theorem update_after_delete s app_id db' now p :
  unique_ids (jobapplication s) →
  delete_application (Some s) app_id = (Ok tt, db') →
  model_dump_exclude_none p ≠ ∅ →
  update_application db' now app_id p
  = (Raise (HTTPException 404 "Application not found"), db').
Proof.
  intros Hu Hdel He. apply delete_application_Ok in Hdel
    as (s0 & oid & pre & d & post & [= <-] & Hid & Hs & Hpre & Hd & ->).
  unfold update_application.
  rewrite (set_and_fetch_missing (Database (pre ++ post)) now app_id p oid
             He Hid); [done|].
  cbn [jobapplication]. apply Forall_app. split; [done|].
  rewrite Hs in Hu. by eapply unique_ids_after.
Qed.

(** X14 at work: [acme_doc] deleted, then updated. *)
Lemma update_after_delete_witness :
  unique_ids (jobapplication (Database [acme_doc])) ∧
  delete_application db1 id1 = (Ok tt, Some (Database [])) ∧
  model_dump_exclude_none company_update ≠ ∅ ∧
  update_application (Some (Database [])) t0 id1 company_update
  = (Raise (HTTPException 404 "Application not found"), Some (Database [])).
Proof.
  assert (unique_ids (jobapplication (Database [acme_doc]))) as H1.
  { unfold unique_ids. change (omap doc_oid _) with [oid1].
    apply NoDup_singleton. }
  assert (delete_application db1 id1 = (Ok tt, Some (Database []))) as H2
    by reflexivity.
  split; [exact H1|]. split; [exact H2|].
  split; [exact company_update_not_empty|].
  exact (update_after_delete (Database [acme_doc]) id1 _ t0 company_update
           H1 H2 company_update_not_empty).
Defined.

(** ** [create_application] and [delete_application] together *)

(** X15. Creating a document without dates and then deleting it under
    the identifier the create answer carries gives back the store as it
    was ([create_document] as modelled from the spec). *)
Theorem create_then_delete s fresh b payload :
  validate_create b = Some payload →
  applied_date payload = None → follow_up_date payload = None →
  canonical fresh = true →
  existsb (has_id fresh) (jobapplication s) = false →
  ∃ pub db',
    POST_applications (Some s) fresh b = (Response 201 (Document pub), db') ∧
    pub !! "id" = Some (VStr (str_oid fresh)) ∧
    DELETE_application db' (str_oid fresh)
    = (Response 204 NoContent, Some s).
Proof.
  intros Hv Hno1 Hno2 Hc Hf.
  set (doc := <["_id" := VOid fresh]> (model_dump payload)).
  assert (doc !! "_id" = Some (VOid fresh)) as Hid by apply lookup_insert_eq.
  eexists _, _. split; [|split].
  - unfold POST_applications, create_application. rewrite Hv.
    rewrite (insert_and_fetch_fresh _ _ _ Hno1 Hno2 Hc Hf). fold doc.
    by rewrite (to_public_oid _ _ Hid).
  - by rewrite lookup_fmap, lookup_insert_eq.
  - unfold DELETE_application.
    rewrite (delete_application_found (Database (jobapplication s ++ [doc]))
               (str_oid fresh) fresh (jobapplication s) doc []
               (canonical_roundtrip _ Hc) eq_refl
               (existsb_has_id_false _ _ Hf) (proj2 (has_id_true _ _) Hid)).
    by rewrite app_nil_r, database_eta.
Qed.

(** X15 at work: [acme_body] created in an empty store and deleted. *)
Lemma create_then_delete_witness :
  validate_create acme_body = Some acme ∧
  applied_date acme = None ∧ follow_up_date acme = None ∧
  canonical oid1 = true ∧
  existsb (has_id oid1) (jobapplication (Database [])) = false ∧
  ∃ pub db',
    POST_applications (Some (Database [])) oid1 acme_body
    = (Response 201 (Document pub), db') ∧
    pub !! "id" = Some (VStr (str_oid oid1)) ∧
    DELETE_application db' (str_oid oid1)
    = (Response 204 NoContent, Some (Database [])).
Proof.
  split; [reflexivity|]. split; [reflexivity|]. split; [reflexivity|].
  split; [reflexivity|]. split; [reflexivity|].
  exact (create_then_delete (Database []) oid1 acme_body acme
           eq_refl eq_refl eq_refl eq_refl eq_refl).
Defined.

Lemma bson_items_model_dump_date m :
  is_Some (applied_date m) ∨ is_Some (follow_up_date m) →
  ∃ d, bson_items (model_dump_items m) = inl d.
Proof.
  intros H. unfold model_dump_items. cbn [bson_items].
  rewrite !bson_value_or_null_text.
  change (bson_value (VStr (company m))) with (@inr date _ (VStr (company m))).
  change (bson_value (VStr (position m))) with (@inr date _ (VStr (position m))).
  change (bson_value (VStr (status m))) with (@inr date _ (VStr (status m))).
  destruct (applied_date m) as [d|]; [by exists d|].
  destruct H as [[? [=]]|[d ->]]. by exists d.
Qed.

(** X24. A valid create body with a date, [applied_date] or
    [follow_up_date], is answered 400 and nothing is stored: the store's
    encoding has no calendar date, and the driver refuses the document
    ([create_document] as modelled from the spec). *)
Theorem create_refuses_dates s fresh b payload :
  validate_create b = Some payload →
  is_Some (applied_date payload) ∨ is_Some (follow_up_date payload) →
  ∃ detail,
    POST_applications (Some s) fresh b = (ErrorResponse 400 detail, Some s).
Proof.
  intros Hv Hd. destruct (bson_items_model_dump_date _ Hd) as [d Hitems].
  unfold POST_applications, create_application, insert_and_fetch,
    create_document, insert_one.
  rewrite Hv, Hitems. by eexists.
Qed.

(** X24 at work: [dated_body] in the store that holds [acme_doc]. *)
Lemma create_refuses_dates_witness :
  (∃ payload,
     validate_create dated_body = Some payload ∧
     (is_Some (applied_date payload) ∨ is_Some (follow_up_date payload)) ∧
     ∃ detail,
       POST_applications db1 oid1 dated_body = (ErrorResponse 400 detail, db1)).
Proof.
  eexists. split; [reflexivity|].
  assert (is_Some (Some (Date 2024 1 2)) ∨ is_Some (@None date)) as H
    by (left; by eexists).
  split; [exact H|].
  exact (create_refuses_dates (Database [acme_doc]) oid1 dated_body _
           eq_refl H).
Defined.

(** ** The schemas *)

Lemma required_is_Some {A} (i : field_input A) :
  is_Some (required i) ↔ is_given i.
Proof.
  unfold is_given. destruct i; simpl; split;
    try (intros [? ?]; done); eauto.
Qed.

Lemma optional_is_Some {A} (i : field_input A) :
  is_Some (optional i) ↔ i ≠ Unparseable.
Proof. destruct i; simpl; split; try done; eauto; by intros []. Qed.

Lemma with_default_is_Some {A} (d : A) (i : field_input A) :
  is_Some (with_default d i) ↔ absent_or_given i.
Proof.
  unfold absent_or_given. destruct i; simpl; split; eauto;
    try (by intros []); intros [|[? ?]]; done.
Qed.

Lemma optional_with_default_is_Some {A} (d : A) (i : field_input A) :
  is_Some (optional_with_default d i) ↔ i ≠ Unparseable.
Proof. destruct i; simpl; split; try done; eauto; by intros []. Qed.

Lemma ge_0_is_Some (i : field_input Q) :
  is_Some (optional i ≫= ge_0) ↔ not_negative i.
Proof.
  unfold not_negative. destruct i as [| |x|]; simpl.
  - split; [|eauto]. intros _. split; [done|]. intros x; done.
  - split; [|eauto]. intros _. split; [done|]. intros x; done.
  - destruct (Qle_bool 0 x) eqn:E.
    + apply Qle_bool_iff in E. split; [|eauto]. intros _. split; [done|].
      by intros y [= <-].
    + split; [by intros []|]. intros [_ H]. specialize (H x eq_refl).
      apply Qle_bool_iff in H. congruence.
  - split; [by intros []|]. by intros [].
Qed.

(** X16. The create schema accepts a body exactly when company and
    position hold a text, status and tags are missing or hold a value,
    the two salary bounds are missing, null or not negative, and no other
    field holds a value that does not parse. *)
Theorem validate_create_accepts b :
  is_Some (validate_create b) ↔ accepted_create b.
Proof.
  unfold accepted_create.
  rewrite <- (optional_with_default_is_Some "medium" (b_priority b)),
    <- !required_is_Some, <- !optional_is_Some, <- !ge_0_is_Some,
    <- !(with_default_is_Some "applied" (b_status b)),
    <- !(with_default_is_Some [] (b_tags b)).
  unfold validate_create. split.
  - intros [m H].
    repeat (apply bind_Some in H as (? & ? & H)).
    repeat split; eauto.
    all: match goal with
         | H1 : optional ?i = Some ?x, H2 : ge_0 ?x = Some _
           |- is_Some (optional ?i ≫= ge_0) => rewrite H1; simpl; eauto
         | _ => idtac
         end.
    all: match goal with
         | H : ?v = Some _ |- is_Some ?v => eauto
         end.
  - intros ([c ->] & [p' ->] & [? ->] & [? ->] & [? ->] & [? ->] & [? ->]
            & [? ->] & [? ->] & [? ->] & [? ->] & [? ->] & [? ->] & [? Hpr]
            & [? ->] & [? ->]).
    simpl. rewrite Hpr. simpl. eauto.
Qed.

(** X17. The create schema never compares the two salary bounds: a body
    it accepts is accepted with any two bounds that are not negative,
    whichever is the larger. *)
Theorem salary_bounds_independent b lo hi :
  (0 <= lo)%Q → (0 <= hi)%Q →
  is_Some (validate_create b) →
  is_Some (validate_create (with_salaries b (Given lo) (Given hi))).
Proof.
  intros Hlo Hhi. rewrite !validate_create_accepts. unfold accepted_create.
  cbn [with_salaries b_company b_position b_location b_job_link b_source
       b_status b_applied_date b_follow_up_date b_salary_min b_salary_max
       b_contact_name b_contact_email b_resume_version b_priority b_tags
       b_notes].
  intros (?&?&?&?&?&?&?&?&_&_&?&?&?&?&?&?).
  repeat split; try done; by intros x [= <-].
Qed.

(** X17 at work: a lower bound above the upper bound. *)
Lemma salary_bounds_independent_witness :
  (0 <= 90000)%Q ∧ (0 <= 100)%Q ∧
  is_Some (validate_create acme_body) ∧
  is_Some (validate_create
             (with_salaries acme_body (Given 90000%Q) (Given 100%Q))).
Proof.
  assert (0 <= 90000)%Q as H1 by done.
  assert (0 <= 100)%Q as H2 by done.
  assert (is_Some (validate_create acme_body)) as H3 by (by exists acme).
  split; [exact H1|]. split; [exact H2|]. split; [exact H3|].
  exact (salary_bounds_independent acme_body 90000%Q 100%Q H1 H2 H3).
Defined.

(** X18. The update schema accepts a body exactly when no field holds a
    value that does not parse; it has no bound on the salaries, so a
    negative salary, which the create schema refuses, passes validation
    and is the one entry of the update. *)
Theorem validate_update_accepts :
  (∀ b, is_Some (validate_update b) ↔ accepted_update b) ∧
  (∀ x, ∃ p, validate_update (salary_min_body x) = Some p ∧
             model_dump_exclude_none p = {[ "salary_min" := VNum x ]}) ∧
  (∀ b x, b_salary_min b = Given x → (x < 0)%Q → validate_create b = None).
Proof.
  split; [|split].
  - intros b. unfold accepted_update. rewrite <- !optional_is_Some.
    unfold validate_update. split.
    + intros [m H].
      repeat (apply bind_Some in H as (? & ? & H)).
      repeat split; eauto.
    + intros ([? ->] & [? ->] & [? ->] & [? ->] & [? ->] & [? ->] & [? ->]
              & [? ->] & [? ->] & [? ->] & [? ->] & [? ->] & [? ->] & [? ->]
              & [? ->] & [? ->]).
      simpl. eauto.
  - intros x. eexists. split; [reflexivity|]. reflexivity.
  - intros b x Hb Hx. apply rejected_validate_create. unfold rejected.
    do 6 right. left. eauto.
Qed.

(** X18 at work: the salary -5. *)
Lemma validate_update_accepts_witness :
  b_salary_min (with_salaries blank_body (Given (-5)%Q) Absent)
  = Given (-5)%Q ∧
  (-5 < 0)%Q ∧
  validate_create (with_salaries blank_body (Given (-5)%Q) Absent) = None ∧
  ∃ p, validate_update (salary_min_body (-5)%Q) = Some p ∧
       model_dump_exclude_none p = {[ "salary_min" := VNum (-5)%Q ]}.
Proof.
  assert ((-5 < 0)%Q) as H by done.
  split; [reflexivity|]. split; [exact H|]. split.
  - exact (proj2 (proj2 validate_update_accepts)
             (with_salaries blank_body (Given (-5)%Q) Absent) (-5)%Q
             eq_refl H).
  - exact (proj1 (proj2 validate_update_accepts) (-5)%Q).
Defined.

Lemma ge_0_le_120_is_Some (i : field_input Z) :
  is_Some (optional i ≫= ge_0_le_120)
  ↔ i ≠ Unparseable ∧ ∀ n, i = Given n → (0 ≤ n ≤ 120)%Z.
Proof.
  destruct i as [| |n|]; simpl.
  - split; [|eauto]. intros _. split; [done|]. intros n; done.
  - split; [|eauto]. intros _. split; [done|]. intros n; done.
  - destruct ((0 <=? n)%Z && (n <=? 120)%Z) eqn:E.
    + split; [|eauto]. intros _. split; [done|]. intros m [= <-]. lia.
    + split; [by intros []|]. intros [_ H]. specialize (H n eq_refl). lia.
  - split; [by intros []|]. by intros [].
Qed.

(** X19. The [User] schema accepts a body exactly when name, email and
    address hold a text, the age is missing, null or an integer from 0 to
    120, both bounds included, and [is_active] is missing or holds a
    boolean; a missing [is_active] is read as true. *)
Theorem validate_user_accepts b :
  (is_Some (validate_user b)
   ↔ is_given (ub_name b) ∧ is_given (ub_email b) ∧ is_given (ub_address b) ∧
     (ub_age b ≠ Unparseable ∧ ∀ n, ub_age b = Given n → (0 ≤ n ≤ 120)%Z) ∧
     absent_or_given (ub_is_active b)) ∧
  (∀ u, validate_user b = Some u → ub_is_active b = Absent →
        user_is_active u = true).
Proof.
  split.
  - rewrite <- !required_is_Some, <- ge_0_le_120_is_Some,
      <- (with_default_is_Some true).
    unfold validate_user. split.
    + intros [m H].
      repeat (apply bind_Some in H as (? & ? & H)).
      repeat split; eauto;
        match goal with
        | H1 : optional ?i = Some ?x |- is_Some (optional ?i ≫= _) =>
            rewrite H1; simpl; eauto
        end.
    + intros ([? ->] & [? ->] & [? ->] & [? ->] & [? ->]). simpl. eauto.
  - intros u H Ha. unfold validate_user in H. rewrite Ha in H.
    repeat (apply bind_Some in H as (? & ? & H)).
    injection H as <-. simpl in *. congruence.
Qed.

Lemma price_is_Some (i : field_input Q) :
  is_Some (required i ≫= price_ge_0) ↔ ∃ x, i = Given x ∧ (0 <= x)%Q.
Proof.
  destruct i as [| |x|]; simpl;
    try (split; [by intros []|by intros (? & ? & _)]).
  unfold price_ge_0. destruct (Qle_bool 0 x) eqn:E.
  - apply Qle_bool_iff in E. split; eauto.
  - split; [by intros []|]. intros (y & [= <-] & H).
    apply Qle_bool_iff in H. congruence.
Qed.

(** X20. The [Product] schema accepts a body exactly when title and
    category hold a text, the price is present and not negative, the
    description does not fail to parse, and [in_stock] is missing or holds
    a boolean. *)
Theorem validate_product_accepts b :
  is_Some (validate_product b)
  ↔ is_given (pb_title b) ∧ pb_description b ≠ Unparseable ∧
    (∃ x, pb_price b = Given x ∧ (0 <= x)%Q) ∧
    is_given (pb_category b) ∧ absent_or_given (pb_in_stock b).
Proof.
  rewrite <- !required_is_Some, <- optional_is_Some, <- price_is_Some,
    <- (with_default_is_Some true).
  unfold validate_product. split.
  - intros [m H].
    repeat (apply bind_Some in H as (? & ? & H)).
    repeat split; eauto;
      match goal with
      | H1 : required ?i = Some ?x |- is_Some (required ?i ≫= _) =>
          rewrite H1; simpl; eauto
      end.
  - intros ([? ->] & [? ->] & [? ->] & [? ->] & [? ->]). simpl. eauto.
Qed.

(** X16 at work: [blank_body], whose two texts are empty. *)
Lemma validate_create_accepts_witness :
  accepted_create blank_body ∧ is_Some (validate_create blank_body).
Proof.
  assert (accepted_create blank_body) as H.
  { unfold accepted_create, is_given, absent_or_given, not_negative. simpl.
    repeat split; eauto; done. }
  split; [exact H|]. exact (proj2 (validate_create_accepts blank_body) H).
Defined.

(** X19 at work: the age 120 is accepted, [is_active] is read as true. *)
Lemma validate_user_accepts_witness :
  validate_user ada_body
  = Some {| user_name := "Ada"; user_email := "a@b.c"; user_address := "x";
            user_age := Some 120%Z; user_is_active := true |} ∧
  ub_is_active ada_body = Absent ∧
  user_is_active {| user_name := "Ada"; user_email := "a@b.c";
                    user_address := "x"; user_age := Some 120%Z;
                    user_is_active := true |} = true.
Proof.
  split; [reflexivity|]. split; [reflexivity|].
  exact (proj2 (validate_user_accepts ada_body) _ eq_refl eq_refl).
Defined.

(** X20 at work: the price 0 is accepted. *)
Lemma validate_product_accepts_witness :
  (is_given (pb_title pen_body) ∧ pb_description pen_body ≠ Unparseable ∧
   (∃ x, pb_price pen_body = Given x ∧ (0 <= x)%Q) ∧
   is_given (pb_category pen_body) ∧ absent_or_given (pb_in_stock pen_body)) ∧
  is_Some (validate_product pen_body).
Proof.
  assert (is_given (pb_title pen_body) ∧ pb_description pen_body ≠ Unparseable ∧
          (∃ x, pb_price pen_body = Given x ∧ (0 <= x)%Q) ∧
          is_given (pb_category pen_body) ∧
          absent_or_given (pb_in_stock pen_body)) as H.
  { unfold is_given, absent_or_given. simpl.
    repeat split; eauto; try done. exists 0%Q. by split. }
  split; [exact H|]. exact (proj2 (validate_product_accepts pen_body) H).
Defined.

(** ** [test_database] *)

(** X21. The [database_url] and [database_name] entries of the diagnostic
    answer tell only whether the two environment variables are set to a
    non-empty value: what the handler writes under these keys for a
    configured database is always overwritten. *)
Theorem test_database_environment db getenv :
  test_database db getenv !! "database_url"
  = Some (VStr (if env_set getenv "DATABASE_URL" then "✅ Set" else "❌ Not Set")) ∧
  test_database db getenv !! "database_name"
  = Some (VStr (if env_set getenv "DATABASE_NAME" then "✅ Set" else "❌ Not Set")) ∧
  (getenv "DATABASE_URL" = Some "" → 
   test_database db getenv !! "database_url" = Some (VStr "❌ Not Set")).
Proof.
  unfold test_database. cbn zeta.
  assert (∀ (m : document) v w,
            <["database_name" := v]> (<["database_url" := w]> m)
              !! "database_url" = Some w) as Hu.
  { intros m v w. by rewrite lookup_insert_ne, lookup_insert_eq by done. }
  split; [apply Hu|]. split; [apply lookup_insert_eq|].
  intros He. rewrite Hu. unfold env_set. by rewrite He.
Qed.

(** X21 at work: [DATABASE_URL] set to the empty text. *)
Lemma test_database_environment_witness :
  empty_url_env "DATABASE_URL" = Some "" ∧
  test_database (Some failing_handle) empty_url_env !! "database_url"
  = Some (VStr "❌ Not Set").
Proof.
  split; [reflexivity|].
  exact (proj2 (proj2 (test_database_environment (Some failing_handle)
                         empty_url_env)) eq_refl).
Defined.

Lemma utf8_take_length n l : (utf8_length (utf8_take n l) ≤ n)%nat.
Proof.
  revert n. induction l as [|c l IH]; intros n; simpl; [lia|].
  destruct (is_continuation c) eqn:E; simpl.
  - rewrite E. apply IH.
  - destruct n as [|n]; simpl; [lia|]. rewrite E. specialize (IH n). lia.
Qed.

Lemma utf8_take_prefix n l : ∃ rest, l = utf8_take n l ++ rest.
Proof.
  revert n. induction l as [|c l IH]; intros n; simpl; [by exists []|].
  destruct (is_continuation c).
  - destruct (IH n) as [rest Hr]. exists rest. simpl. by f_equal.
  - destruct n as [|n]; [by exists (c :: l)|].
    destruct (IH n) as [rest Hr]. exists rest. simpl. by f_equal.
Qed.

Lemma utf8_take_all n l : (utf8_length l ≤ n)%nat → utf8_take n l = l.
Proof.
  revert n. induction l as [|c l IH]; intros n; simpl; [done|].
  destruct (is_continuation c).
  - intros H. by rewrite IH.
  - destruct n as [|n]; [lia|]. intros H. rewrite IH; [done|lia].
Qed.

Lemma first_50_chars s : chars (first_50 s) = utf8_take 50 (chars s).
Proof. unfold first_50, chars. by rewrite list_ascii_of_string_of_list_ascii. Qed.

(** X22. The diagnostic answer lists at most ten collections, the first
    ten the database names, in order; it lists none when no database is
    configured or when the listing fails. *)
Theorem test_database_collections db getenv :
  ∃ shown,
    test_database db getenv !! "collections" = Some (VTags shown) ∧
    (length shown ≤ 10)%nat ∧
    match db with
    | Some h =>
        match list_collection_names h with
        | Names collections => shown = take 10 collections
        | NamesError _ => shown = []
        end
    | None => shown = []
    end.
Proof.
  unfold test_database. cbn zeta.
  destruct db as [h|]; [destruct (list_collection_names h) as [l|e]|].
  - exists (take 10 l). split; [|split; [rewrite length_take; lia|done]].
    by rewrite !lookup_insert_ne, lookup_insert_eq by done.
  - exists []. split; [|split; [simpl; lia|done]].
    by rewrite !lookup_insert_ne by done.
  - exists []. split; [|split; [simpl; lia|done]].
    by rewrite !lookup_insert_ne by done.
Qed.

(** X23. The diagnostic answer reports the database as connected and
    working exactly when a database is configured and lists its
    collections; when the listing fails it reports the failure with the
    first 50 characters of the exception text, all of it when it has no
    more. The backend entry is the same in every answer. *)
Theorem test_database_status db getenv :
  (test_database db getenv !! "database" = Some (VStr "✅ Connected & Working")
   ↔ ∃ h l, db = Some h ∧ list_collection_names h = Names l) ∧
  (∀ h e, db = Some h → list_collection_names h = NamesError e →
          ∃ shown rest,
            test_database db getenv !! "database"
            = Some (VStr ("⚠️  Connected but Error: " +:+ shown)) ∧
            (py_len shown ≤ 50)%nat ∧
            chars (str_exn e) = chars shown ++ rest ∧
            ((py_len (str_exn e) ≤ 50)%nat → shown = str_exn e) ∧
            chars shown = utf8_take 50 (chars (str_exn e))) ∧
  (db = None →
   test_database db getenv !! "database"
   = Some (VStr "⚠️  Available but not initialized")) ∧
  (db = None →
   test_database db getenv !! "connection_status"
   = Some (VStr "Not Connected")) ∧
  test_database db getenv !! "backend" = Some (VStr "✅ Running").
Proof.
  assert (test_database db getenv !! "database"
          = Some (VStr match db with
                       | Some h =>
                           match list_collection_names h with
                           | Names _ => "✅ Connected & Working"
                           | NamesError e =>
                               "⚠️  Connected but Error: "
                               +:+ first_50 (str_exn e)
                           end
                       | None => "⚠️  Available but not initialized"
                       end)) as Hdb.
  { unfold test_database. cbn zeta.
    destruct db as [h|]; [destruct (list_collection_names h)|];
      by rewrite !lookup_insert_ne, lookup_insert_eq by done. }
  split; [|split; [|split; [|split]]].
  - rewrite Hdb. split.
    + destruct db as [h|]; [|done].
      destruct (list_collection_names h) as [l|e] eqn:Hn; [by exists h, l|].
      simpl. discriminate.
    + by intros (h & l & -> & ->).
  - intros h e -> He. rewrite Hdb, He.
    destruct (utf8_take_prefix 50 (chars (str_exn e))) as [rest Hrest].
    exists (first_50 (str_exn e)), rest.
    split; [done|]. unfold py_len. rewrite first_50_chars.
    split; [apply utf8_take_length|]. split; [exact Hrest|]. split; [|done].
    intros Hlen. unfold first_50. rewrite (utf8_take_all _ _ Hlen).
    unfold chars. apply string_of_list_ascii_of_string.
  - by intros ->.
  - intros ->. unfold test_database. cbn zeta.
    by rewrite !lookup_insert_ne by done.
  - unfold test_database. cbn zeta.
    destruct db as [h|]; [destruct (list_collection_names h)|];
      by rewrite !lookup_insert_ne by done.
Qed.

(** X23 at work: a handle whose listing fails with a message of 70
    characters, of which the answer has the first 50, in 55 bytes. *)
Lemma test_database_status_witness :
  list_collection_names refusing_handle
  = NamesError (Exception
      "connexion refusée par le serveur de données à l’adresse 10.0.0.1:27017") ∧
  test_database (Some refusing_handle) no_env !! "database"
  = Some (VStr ("⚠️  Connected but Error: "
                +:+ "connexion refusée par le serveur de données à l’ad")) ∧
  ∃ shown rest,
    test_database (Some refusing_handle) no_env !! "database"
    = Some (VStr ("⚠️  Connected but Error: " +:+ shown)) ∧
    (py_len shown ≤ 50)%nat ∧
    chars (str_exn (Exception
      "connexion refusée par le serveur de données à l’adresse 10.0.0.1:27017"))
    = chars shown ++ rest ∧
    ((py_len (str_exn (Exception
        "connexion refusée par le serveur de données à l’adresse 10.0.0.1:27017"))
      ≤ 50)%nat →
     shown = str_exn (Exception
       "connexion refusée par le serveur de données à l’adresse 10.0.0.1:27017")) ∧
    chars shown
    = utf8_take 50 (chars (str_exn (Exception
        "connexion refusée par le serveur de données à l’adresse 10.0.0.1:27017"))).
Proof.
  split; [reflexivity|]. split; [reflexivity|].
  exact (proj1 (proj2 (test_database_status (Some refusing_handle) no_env))
           refusing_handle _ eq_refl eq_refl).
Defined.
